(** * Request logger and Telegram notifier ([public/engine/telegram.js])

    A shallow embedding of the two exported operations, [getRequest] and
    [sendTele], and of the helpers they close over ([logStyled],
    [escapeMarkdownV2]), followed by the properties the specification states
    about them.

    JavaScript strings are modelled as [string]: the program only inspects
    ASCII characters, which a UTF-8 byte never aliases inside a longer
    sequence. *)

From Stdlib Require Import String Ascii List Bool Arith Lia.
Import ListNotations.
Open Scope string_scope.
Open Scope bool_scope.
Set Warnings "-register-all".

(* ================================================================= *)
(** ** Strings *)

Module Str.

(** [text.replace(/c/g, by_)] for a one-character pattern: every occurrence
    of [c] is replaced, and the replacement is not scanned again. *)
Fixpoint replace (c : ascii) (by_ : string) (text : string) : string :=
  match text with
  | EmptyString => EmptyString
  | String a rest =>
      if Ascii.eqb a c then by_ ++ replace c by_ rest
      else String a (replace c by_ rest)
  end.

(** Every character of [s] satisfies [p]. *)
Fixpoint all (p : ascii -> bool) (s : string) : bool :=
  match s with
  | EmptyString => true
  | String a rest => p a && all p rest
  end.

(** [s] begins with the character [c]. *)
Definition starts_with (c : ascii) (s : string) : bool :=
  match s with
  | EmptyString => false
  | String b _ => Ascii.eqb b c
  end.

(** [needle] occurs in [hay] as a contiguous run of characters. *)
Definition contains (hay needle : string) : Prop :=
  exists before after, hay = before ++ needle ++ after.

Definition nonempty (s : string) : Prop := s <> "".

End Str.

Definition backslash : ascii := "\"%char.

(* ================================================================= *)
(** ** MessageEscaper: [escapeMarkdownV2] (lines 107-127) *)

(** Method chaining, read from left to right as in the source. *)
Notation "x |> f" := (f x) (at level 50, left associativity, only parsing).

(** The eighteen global replacements, in the order of the source. *)
Definition escapeMarkdownV2 (text : string) : string :=
  text
    |> Str.replace "_" "\_"
    |> Str.replace "*" "\*"
    |> Str.replace "[" "\["
    |> Str.replace "]" "\]"
    |> Str.replace "(" "\("
    |> Str.replace ")" "\)"
    |> Str.replace "~" "\~"
    |> Str.replace "`" "\`"
    |> Str.replace ">" "\>"
    |> Str.replace "#" "\#"
    |> Str.replace "+" "\+"
    |> Str.replace "-" "\-"
    |> Str.replace "=" "\="
    |> Str.replace "|" "\|"
    |> Str.replace "{" "\{"
    |> Str.replace "}" "\}"
    |> Str.replace "." "\."
    |> Str.replace "!" "\!".

(** The reserved set, in the order the source escapes it. *)
Definition reserved_chars : list ascii :=
  ["_"; "*"; "["; "]"; "("; ")"; "~"; "`"; ">"; "#"; "+"; "-"; "="; "|";
   "{"; "}"; "."; "!"]%char.

Definition reserved (a : ascii) : bool :=
  existsb (Ascii.eqb a) reserved_chars.

(** The inverse the specification describes ("reversing each substitution"):
    one pass per reserved character, turning every backslash-and-[c] pair
    back into [c], scanning from the left as a global replacement does. *)
Fixpoint unreplace (c : ascii) (text : string) : string :=
  match text with
  | EmptyString => EmptyString
  | String a rest =>
      match rest with
      | EmptyString => text
      | String b rest' =>
          if Ascii.eqb a backslash && Ascii.eqb b c
          then String c (unreplace c rest')
          else String a (unreplace c rest)
      end
  end.

(** The passes of [escapeMarkdownV2] undone one by one, last one first. *)
Definition unescapeMarkdownV2 (text : string) : string :=
  fold_left (fun acc c => unreplace c acc) (rev reserved_chars) text.

(** A single scan that puts a backslash before the characters of [R]: the
    form every intermediate text of [escapeMarkdownV2] has. *)
Fixpoint escape_set (R : ascii -> bool) (text : string) : string :=
  match text with
  | EmptyString => EmptyString
  | String a rest =>
      if R a then String backslash (String a (escape_set R rest))
      else String a (escape_set R rest)
  end.

(** The inputs of the round-trip property: reserved characters and ordinary
    ones, an ordinary character being neither reserved nor a backslash. *)
Definition ordinary (a : ascii) : bool :=
  negb (reserved a) && negb (Ascii.eqb a backslash).

Definition reserved_or_ordinary (a : ascii) : bool := reserved a || ordinary a.

(* ================================================================= *)
(** ** JavaScript values *)

(** The values that reach the program from parsed JSON bodies and from the
    process-wide configuration.  A Number is carried by the text that
    [Number.prototype.toString] gives for it: the program applies only
    ToString, ToBoolean and [JSON.stringify] to a number.  An object is the
    list of its own enumerable properties in enumeration order. *)
Inductive value : Type :=
| VUndefined
| VNull
| VBool (b : bool)
| VNumber (text : string)
| VString (s : string)
| VArray (items : list value)
| VObject (props : list (string * value)).

(** ToBoolean. *)
Definition to_boolean (v : value) : bool :=
  match v with
  | VUndefined | VNull => false
  | VBool b => b
  | VNumber text => negb (String.eqb text "0") && negb (String.eqb text "NaN")
  | VString s => negb (String.eqb s "")
  | VArray _ | VObject _ => true
  end.


(** A response of axios, as far as the program reads it, and an error
    object as it reads one: [error.message] and [error.response.data]. *)
Record Response : Type := { data : value }.

Record JsError : Type := {
  message : string;
  response : option Response
}.

(** The TypeError of a property read on [undefined] or [null], and the one
    of a conversion to text that finds no usable method, both with the
    wording of V8. *)
Definition TypeError_read (of_ name : string) : JsError :=
  {| message := "Cannot read properties of " ++ of_ ++ " (reading '" ++ name ++ "')";
     response := None |}.

Definition TypeError_convert : JsError :=
  {| message := "Cannot convert object to primitive value";
     response := None |}.

(** How an evaluation ends. *)
Inductive Completion (A : Type) : Type :=
| Normal (a : A)
| Throw (e : JsError).
Arguments Normal {A} a.
Arguments Throw {A} e.

(** The object has an own property [name]. *)
Definition has_own (name : string) (props : list (string * value)) : bool :=
  existsb (fun kv => String.eqb (fst kv) name) props.

(** ToString, as a template literal applies it.  A parsed object holds data
    only, so an own [toString] property is not callable: OrdinaryToPrimitive
    skips it, gets the object itself back from the inherited [valueOf], and
    throws.  Without one the inherited method answers "[object Object]".  An
    array is joined with commas, [undefined] and [null] elements as empty
    texts, the others converted in turn. *)
Fixpoint to_string (v : value) : Completion string :=
  match v with
  | VUndefined => Normal "undefined"
  | VNull => Normal "null"
  | VBool true => Normal "true"
  | VBool false => Normal "false"
  | VNumber text => Normal text
  | VString s => Normal s
  | VArray items =>
      let element x :=
        match x with
        | VUndefined | VNull => Normal ""
        | _ => to_string x
        end in
      (fix join_items (l : list value) : Completion string :=
         match l with
         | [] => Normal ""
         | [x] => element x
         | x :: rest =>
             match element x with
             | Normal s =>
                 match join_items rest with
                 | Normal r => Normal (s ++ "," ++ r)
                 | Throw e => Throw e
                 end
             | Throw e => Throw e
             end
         end) items
  | VObject props =>
      if has_own "toString" props then Throw TypeError_convert
      else Normal "[object Object]"
  end.

(** The conversion to text succeeds. *)
Definition converts (v : value) : bool :=
  match to_string v with
  | Normal _ => true
  | Throw _ => false
  end.

(** [v === s] for a string literal [s]. *)
Definition strict_eq_string (v : value) (s : string) : bool :=
  match v with
  | VString s' => String.eqb s' s
  | _ => false
  end.

(** [a || b] on values. *)
Definition js_or (a b : value) : value := if to_boolean a then a else b.

Fixpoint lookup (name : string) (props : list (string * value)) : value :=
  match props with
  | [] => VUndefined
  | (k, v) :: rest => if String.eqb k name then v else lookup name rest
  end.

(** [v.name], for the property names this program reads (none of them is
    defined on a built-in prototype, so only own properties matter). *)
Definition get_prop (v : value) (name : string) : Completion value :=
  match v with
  | VUndefined => Throw (TypeError_read "undefined" name)
  | VNull => Throw (TypeError_read "null" name)
  | VObject props => Normal (lookup name props)
  | VBool _ | VNumber _ | VString _ | VArray _ => Normal VUndefined
  end.

(** The word V8 prints for [undefined] and [null] in a TypeError. *)
Definition nullish_name (v : value) : string :=
  match v with
  | VNull => "null"
  | _ => "undefined"
  end.

(** The values the process-wide configuration holds: the settings file
    assigns texts or numbers, and a setting that is absent reads as
    [undefined].  ToString never throws on them. *)
Inductive primitive : Type :=
| PUndefined
| PNull
| PBool (b : bool)
| PNumber (text : string)
| PString (s : string).

Definition value_of (p : primitive) : value :=
  match p with
  | PUndefined => VUndefined
  | PNull => VNull
  | PBool b => VBool b
  | PNumber text => VNumber text
  | PString s => VString s
  end.

Coercion value_of : primitive >-> value.

Definition text_of (p : primitive) : string :=
  match p with
  | PUndefined => "undefined"
  | PNull => "null"
  | PBool true => "true"
  | PBool false => "false"
  | PNumber text => text
  | PString s => s
  end.

(* ================================================================= *)
(** ** [JSON.stringify] *)

Definition nl : string := String "010" EmptyString.
Definition dquote : string := String "034" EmptyString.

Definition hex_digit (n : nat) : ascii :=
  nth n ["0"; "1"; "2"; "3"; "4"; "5"; "6"; "7"; "8"; "9";
         "a"; "b"; "c"; "d"; "e"; "f"]%char "0"%char.

(** One character of QuoteJSONString: the short escapes, [\u00xx] for the
    other control characters, and the character itself otherwise. *)
Definition QuoteJSONChar (a : ascii) : string :=
  let n := nat_of_ascii a in
  if Nat.eqb n 8 then "\b"
  else if Nat.eqb n 9 then "\t"
  else if Nat.eqb n 10 then "\n"
  else if Nat.eqb n 12 then "\f"
  else if Nat.eqb n 13 then "\r"
  else if Nat.eqb n 34 then "\" ++ dquote
  else if Nat.eqb n 92 then "\\"
  else if Nat.ltb n 32
       then "\u00" ++ String (hex_digit (Nat.div n 16))
                         (String (hex_digit (Nat.modulo n 16)) "")
  else String a "".

Fixpoint QuoteJSONChars (s : string) : string :=
  match s with
  | EmptyString => EmptyString
  | String a rest => QuoteJSONChar a ++ QuoteJSONChars rest
  end.

Definition QuoteJSONString (s : string) : string :=
  dquote ++ QuoteJSONChars s ++ dquote.

Fixpoint join (sep : string) (parts : list string) : string :=
  match parts with
  | [] => ""
  | [p] => p
  | p :: rest => p ++ sep ++ join sep rest
  end.

(** The text of a Number is finite unless it is one of these three. *)
Definition finite (text : string) : bool :=
  negb (String.eqb text "NaN") && negb (String.eqb text "Infinity")
  && negb (String.eqb text "-Infinity").

(** Brackets around the serialized members, as SerializeJSONObject and
    SerializeJSONArray lay them out. *)
Definition wrap (opening closing gap stepback indent : string)
    (partial : list string) : string :=
  match partial with
  | [] => opening ++ closing
  | _ =>
      if String.eqb gap ""
      then opening ++ join "," partial ++ closing
      else opening ++ nl ++ indent ++ join ("," ++ nl ++ indent) partial
           ++ nl ++ stepback ++ closing
  end.

(** SerializeJSONProperty; [None] is [undefined]. *)
Fixpoint SerializeJSONProperty (gap indent : string) (v : value) : option string :=
  match v with
  | VUndefined => None
  | VNull => Some "null"
  | VBool true => Some "true"
  | VBool false => Some "false"
  | VNumber text => Some (if finite text then text else "null")
  | VString s => Some (QuoteJSONString s)
  | VArray items =>
      let stepback := indent in
      let indent := indent ++ gap in
      let partial :=
        map (fun x =>
               match SerializeJSONProperty gap indent x with
               | Some str => str
               | None => "null"
               end) items in
      Some (wrap "[" "]" gap stepback indent partial)
  | VObject props =>
      let stepback := indent in
      let indent := indent ++ gap in
      let partial :=
        flat_map (fun kv =>
               match SerializeJSONProperty gap indent (snd kv) with
               | Some str =>
                   [QuoteJSONString (fst kv) ++ ":"
                    ++ (if String.eqb gap "" then "" else " ") ++ str]
               | None => []
               end) props in
      Some (wrap "{" "}" gap stepback indent partial)
  end.

(** [JSON.stringify(v, null, space)] for a numeric [space]: the gap is that
    many spaces, at most ten; [JSON.stringify(v)] is the case [space = 0]. *)
Definition JSON_stringify (v : value) (space : nat) : option string :=
  SerializeJSONProperty (String.concat "" (repeat " " (Nat.min 10 space))) "" v.

(** An optional string inside a template literal. *)
Definition template (o : option string) : string :=
  match o with
  | Some s => s
  | None => "undefined"
  end.

(* ================================================================= *)
(** ** Effects: the console, the two outbound calls, exceptions *)

Inductive Colour : Type := White | Green | Red | Yellow | Blue.

(** What the program does to the outside, in order.  A console line keeps
    the chalk colour next to the text instead of a terminal's escape codes. *)
Inductive Event : Type :=
| ConsoleLog (colour : Colour) (prefix message : string)
| ConsoleError (colour : Colour) (text : string)
| HttpGet (url : string)
| HttpPost (url : string) (body : value).

(** What the program reads from the outside.  [now] is the text
    [toLocaleString] gives for the current time, and a date never renders
    as the empty text.  Each outbound call settles: it resolves with a
    response or rejects with an error. *)
Record World : Type := {
  now : string;
  now_filled : now <> "";
  axios_get : string -> Completion Response;
  axios_post : string -> value -> Completion Response;
  token : primitive;
  chatid : primitive
}.

(** A computation appends to the trace of events and completes normally or
    throws; for an [async] function, [Normal] is a resolved promise and
    [Throw] a rejected one. *)
Definition M (A : Type) : Type := list Event -> Completion A * list Event.

Definition ret {A} (a : A) : M A := fun t => (Normal a, t).

Definition bind {A B} (m : M A) (k : A -> M B) : M B :=
  fun t =>
    match m t with
    | (Normal a, t') => k a t'
    | (Throw e, t') => (Throw e, t')
    end.

Definition lift {A} (c : Completion A) : M A := fun t => (c, t).

Definition emit (ev : Event) : M unit := fun t => (Normal tt, (t ++ [ev])%list).

Definition try_catch {A} (body : M A) (handler : JsError -> M A) : M A :=
  fun t =>
    match body t with
    | (Normal a, t') => (Normal a, t')
    | (Throw e, t') => handler e t'
    end.

Notation "x <- m ;; k" := (bind m (fun x => k))
  (at level 61, m at next level, right associativity).
Notation "m ;;; k" := (bind m (fun _ => k))
  (at level 61, right associativity).

(** [await axios.get(url)] and [await axios.post(url, body)]. *)
Definition await_get (w : World) (url : string) : M Response :=
  emit (HttpGet url) ;;; lift (axios_get w url).

Definition await_post (w : World) (url : string) (body : value) : M Response :=
  emit (HttpPost url body) ;;; lift (axios_post w url body).

Definition console_error (colour : Colour) (text : string) : M unit :=
  emit (ConsoleError colour text).

(** [logStyled] (lines 11-35): the switch on [type], with ['info'] as the
    default case. *)
Definition logStyled (message : string) (type : string) : M unit :=
  let '(prefix, colorFn) :=
    if String.eqb type "success" then ("✔ [SUCCESS]", Green)
    else if String.eqb type "error" then ("✖ [ERROR]", Red)
    else if String.eqb type "warn" then ("⚠ [WARNING]", Yellow)
    else ("ℹ [INFO]", Blue) in
  emit (ConsoleLog colorFn prefix message).

(* ================================================================= *)
(** ** RequestDescriber and GeoLocator: [getRequest] (lines 44-90) *)

(** The request object; [None] is [undefined].  A Node [IncomingMessage]
    keeps every header as one text except set-cookie, which is always an
    array of texts; the entries are in the order the object enumerates them.
    The method and the URLs are texts when present, the query is a parsed
    object, and [req.connection] may be missing like any other property. *)
Module Req.
Inductive header : Type :=
| Field (name value : string)
| SetCookie (values : list string).
Record Connection : Type := { remoteAddress : option string }.
Record t : Type := {
  headers : option (list header);
  connection : option Connection;
  method : option string;
  originalUrl : option string;
  url : option string;
  query : option (list (string * value))
}.
End Req.

(** The returned object. [query] and [headers] hold what [JSON.stringify]
    returned, which is a string or [undefined] ([None]). *)
Module Snapshot.
Record t : Type := {
  ip : string;
  userAgent : string;
  method : string;
  url : string;
  query : option string;
  headers : option string;
  location : string;
  timestamp : string
}.
End Snapshot.

(** A string-or-[undefined] that [||] skips: [undefined] or the empty string. *)
Definition missing (a : option string) : bool :=
  match a with
  | Some s => String.eqb s ""
  | None => true
  end.

(** [a || b] where [a] is a string or [undefined] and [b] a string. *)
Definition or_else (a : option string) (b : string) : string :=
  match a with
  | Some s => if String.eqb s "" then b else s
  | None => b
  end.

(** [a || b] where evaluating [b] may throw: [b] is evaluated only when [a]
    is skipped. *)
Definition or_elseM (a : option string) (b : M string) : M string :=
  match a with
  | Some s => if String.eqb s "" then b else ret s
  | None => b
  end.

(** The header [name] of a mapping, for the two single-valued names the
    program reads. *)
Fixpoint assoc (name : string) (h : list Req.header) : option string :=
  match h with
  | [] => None
  | Req.Field k v :: rest =>
      if String.eqb k name then Some v else assoc name rest
  | Req.SetCookie _ :: rest => assoc name rest
  end.

(** [req.headers[name]]: a TypeError when [req.headers] is [undefined]. *)
Definition header (req : Req.t) (name : string) : M (option string) :=
  match Req.headers req with
  | Some h => ret (assoc name h)
  | None => lift (Throw (TypeError_read "undefined" name))
  end.

(** [req.connection.remoteAddress]: a TypeError when [req.connection] is
    [undefined]. *)
Definition remoteAddress_of (req : Req.t) : M (option string) :=
  match Req.connection req with
  | Some c => ret (Req.remoteAddress c)
  | None => lift (Throw (TypeError_read "undefined" "remoteAddress"))
  end.

(** The header mapping as the object [JSON.stringify] receives. *)
Definition header_property (e : Req.header) : string * value :=
  match e with
  | Req.Field name v => (name, VString v)
  | Req.SetCookie values => ("set-cookie", VArray (map VString values))
  end.

Definition headers_object (h : list Req.header) : value :=
  VObject (map header_property h).

(** The lookup URL of line 63. *)
Definition lookup_url (ip : string) : string :=
  "http://ip-api.com/json/" ++ ip
  ++ "?fields=status,message,country,regionName,city,lat,lon".

(** The [try]/[catch] of lines 59-78, as a computation of the value it
    leaves in [location].  The [try] block assigns the variable on lines 66
    and 70; whatever throws inside the block, the conversions to text of the
    template literals included, reaches the [catch] block, which assigns the
    variable again on line 76. *)
Definition locate (w : World) (ip : string) : M string :=
  try_catch
    (logStyled ("Mencari detail lokasi untuk IP: " ++ ip ++ "...") "info" ;;;
     res <- await_get w (lookup_url ip) ;;
     success <-
       (if to_boolean (data res)
        then status <- lift (get_prop (data res) "status") ;;
             ret (strict_eq_string status "success")
        else ret false) ;;
     if success : bool then
       city <- lift (get_prop (data res) "city") ;;
       city <- lift (to_string city) ;;
       regionName <- lift (get_prop (data res) "regionName") ;;
       regionName <- lift (to_string regionName) ;;
       country <- lift (get_prop (data res) "country") ;;
       country <- lift (to_string country) ;;
       let location := city ++ ", " ++ regionName ++ ", " ++ country in
       lat <- lift (get_prop (data res) "lat") ;;
       lat <- lift (to_string lat) ;;
       lon <- lift (get_prop (data res) "lon") ;;
       lon <- lift (to_string lon) ;;
       logStyled ("Lokasi ditemukan: " ++ location ++ " (Lat: " ++ lat
                  ++ ", Lon: " ++ lon ++ ")") "success" ;;;
       ret location
     else
       msg <- lift (get_prop (data res) "message") ;;
       msg <- lift (to_string
                      (js_or msg (VString "Error tidak diketahui dari ip-api.com"))) ;;
       let location := "Gagal mendapatkan lokasi: " ++ msg in
       logStyled ("Gagal mencari lokasi IP: " ++ location) "warn" ;;;
       ret location)
    (fun error =>
       console_error Red ("[ERROR FETCH] Gagal mendapatkan lokasi dari ip-api.com untuk IP "
                          ++ ip ++ ": " ++ message error) ;;;
       let location := "Error saat mengambil lokasi: " ++ message error in
       logStyled "Terjadi kesalahan saat mencari lokasi." "error" ;;;
       ret location).

(** [getRequest].  The variable [location] starts as the literal of line 58
    and then takes the value the [try]/[catch] block leaves in it. *)
Definition getRequest (w : World) (req : Req.t) : M Snapshot.t :=
  forwarded <- header req "x-forwarded-for" ;;
  ip <- or_elseM forwarded
          (remote <- remoteAddress_of req ;; ret (or_else remote "Unknown IP")) ;;
  agent <- header req "user-agent" ;;
  let userAgent := or_else agent "Unknown User-Agent" in
  let method := or_else (Req.method req) "Unknown Method" in
  let url := or_else (Req.originalUrl req) (or_else (Req.url req) "Unknown URL") in
  let query :=
    match Req.query req with
    | Some q => JSON_stringify (VObject q) 2
    | None => Some "{}"
    end in
  let headers :=
    match Req.headers req with
    | Some h => JSON_stringify (headers_object h) 2
    | None => Some "{}"
    end in
  let timestamp := now w in
  let location := "Lokasi tidak diketahui" in
  location <- locate w ip ;;
  ret {| Snapshot.ip := ip;
         Snapshot.userAgent := userAgent;
         Snapshot.method := method;
         Snapshot.url := url;
         Snapshot.query := query;
         Snapshot.headers := headers;
         Snapshot.location := location;
         Snapshot.timestamp := timestamp |}.

(** The three fields as the specification words them: one source each, one
    fallback literal each (agent from the user-agent header, method from the
    request method, path from the request URL). *)
Module SingleSource.
Definition agent (h : list Req.header) : string :=
  or_else (assoc "user-agent" h) "Unknown User-Agent".
Definition method (req : Req.t) : string :=
  or_else (Req.method req) "Unknown Method".
Definition path (req : Req.t) : string :=
  or_else (Req.url req) "Unknown URL".
End SingleSource.

(* ================================================================= *)
(** ** NotificationSender: [sendTele] (lines 98-158) *)

(** The endpoint and the JSON body of lines 137-141.  The two credentials
    are primitives, on which the conversion of the template literals cannot
    throw. *)
Definition sendMessage_url (w : World) : string :=
  "https://api.telegram.org/bot" ++ text_of (token w) ++ "/sendMessage".

Definition sendMessage_body (w : World) (fullText : string) : value :=
  VObject [("chat_id", VString (text_of (chatid w)));
           ("text", VString fullText);
           ("parse_mode", VString "MarkdownV2")].

(** The code-block envelope of line 133. *)
Definition envelope (escapedMessage : string) : string :=
  "```" ++ nl ++ escapedMessage ++ nl ++ "```".

(** The warning of line 101. *)
Definition not_configured : string :=
  "Token bot Telegram atau Chat ID belum dikonfigurasi di global. Pesan tidak terkirim.".

Definition sendTele (w : World) (rawMessage : string) : M unit :=
  if negb (to_boolean (token w)) || negb (to_boolean (chatid w)) then
    logStyled not_configured "warn"
  else
    let escapedMessage := escapeMarkdownV2 rawMessage in
    let fullText := envelope escapedMessage in
    try_catch
      (logStyled "Mencoba mengirim notifikasi ke Telegram..." "info" ;;;
       response <- await_post w (sendMessage_url w) (sendMessage_body w fullText) ;;
       ok <- lift (get_prop (data response) "ok") ;;
       if to_boolean ok then
         logStyled "Notifikasi Telegram berhasil terkirim!" "success"
       else
         description <- lift (get_prop (data response) "description") ;;
         description <- lift (to_string
                                (js_or description (VString "Alasan tidak diketahui"))) ;;
         logStyled ("Gagal mengirim notifikasi Telegram: " ++ description) "error")
      (fun error =>
         console_error Red ("[ERROR TELEGRAM] Error saat mengirim pesan Telegram: "
                            ++ message error) ;;;
         match response error with
         | Some r =>
             console_error Red ("[ERROR TELEGRAM RAW] Respons API Telegram: "
                                ++ template (JSON_stringify (data r) 0))
         | None => ret tt
         end ;;;
         logStyled "Notifikasi Telegram gagal terkirim karena kesalahan koneksi atau API." "error").

(** Observations on a trace. *)
Definition is_outbound (ev : Event) : bool :=
  match ev with
  | HttpGet _ | HttpPost _ _ => true
  | ConsoleLog _ _ _ | ConsoleError _ _ => false
  end.

Definition resolves {A} (r : Completion A * list Event) : Prop :=
  exists a, fst r = Normal a.

(** The lines [logStyled] prints for each severity. *)
Definition success_line (m : string) : Event := ConsoleLog Green "✔ [SUCCESS]" m.
Definition error_line (m : string) : Event := ConsoleLog Red "✖ [ERROR]" m.
Definition warning_line (m : string) : Event := ConsoleLog Yellow "⚠ [WARNING]" m.
Definition info_line (m : string) : Event := ConsoleLog Blue "ℹ [INFO]" m.

(** The texts of the three outcomes of the lookup, and the events every
    lookup starts with. *)
Definition place (city regionName country : string) : string :=
  city ++ ", " ++ regionName ++ ", " ++ country.

Definition failure_text (msg : string) : string :=
  "Gagal mendapatkan lokasi: " ++ msg.

Definition transport_text (e : JsError) : string :=
  "Error saat mengambil lokasi: " ++ message e.

Definition lookup_started (t : list Event) (ip : string) : list Event :=
  (t ++ [info_line ("Mencari detail lokasi untuk IP: " ++ ip ++ "...")]
     ++ [HttpGet (lookup_url ip)])%list.

(** What the [catch] block of the lookup appends for an error [e]. *)
Definition lookup_caught (ip : string) (e : JsError) : list Event :=
  [ConsoleError Red
     ("[ERROR FETCH] Gagal mendapatkan lokasi dari ip-api.com untuk IP "
      ++ ip ++ ": " ++ message e);
   error_line "Terjadi kesalahan saat mencari lokasi."].

(** [req.connection.remoteAddress] when the connection is there. *)
Definition remote (req : Req.t) : option string :=
  match Req.connection req with
  | Some c => Req.remoteAddress c
  | None => None
  end.

(** The first line of [getRequest] can be evaluated on a request whose
    header mapping is [h]: the forwarded-for header is not skipped, or the
    connection object is there to be read. *)
Definition addressable (req : Req.t) (h : list Req.header) : bool :=
  negb (missing (assoc "x-forwarded-for" h))
  || match Req.connection req with
     | Some _ => true
     | None => false
     end.

(** The value of that line then: forwarded-for header, else connection
    address, else the literal. *)
Definition address (req : Req.t) (h : list Req.header) : string :=
  or_else (assoc "x-forwarded-for" h) (or_else (remote req) "Unknown IP").

(** The object [getRequest] returns when [req.headers] is [h] and the
    lookup left [location]. *)
Definition snapshot_of (w : World) (req : Req.t) (h : list Req.header)
    (location : string) : Snapshot.t :=
  {| Snapshot.ip := address req h;
     Snapshot.userAgent := or_else (assoc "user-agent" h) "Unknown User-Agent";
     Snapshot.method := or_else (Req.method req) "Unknown Method";
     Snapshot.url :=
       or_else (Req.originalUrl req) (or_else (Req.url req) "Unknown URL");
     Snapshot.query :=
       match Req.query req with
       | Some q => JSON_stringify (VObject q) 2
       | None => Some "{}"
       end;
     Snapshot.headers := JSON_stringify (headers_object h) 2;
     Snapshot.location := location;
     Snapshot.timestamp := now w |}.

(** A field that holds a string, and not the empty one. *)
Definition filled (field : option string) : Prop :=
  exists s, field = Some s /\ Str.nonempty s.

(** The three forms the location text takes. *)
Definition location_shape (location : string) : Prop :=
  (exists city regionName country, location = place city regionName country)
  \/ (exists msg, location = failure_text msg)
  \/ (exists e, location = transport_text e).

(** The request [sendTele] posts for [rawMessage], the events every
    delivery starts with, and the text logged for an API-level rejection. *)
Definition outbound_message (w : World) (rawMessage : string) : value :=
  sendMessage_body w (envelope (escapeMarkdownV2 rawMessage)).

Definition delivery_started (w : World) (rawMessage : string)
    (t : list Event) : list Event :=
  (t ++ [info_line "Mencoba mengirim notifikasi ke Telegram...";
         HttpPost (sendMessage_url w) (outbound_message w rawMessage)])%list.

Definition rejection_text (description : string) : string :=
  "Gagal mengirim notifikasi Telegram: " ++ description.

(** What the [catch] block of [sendTele] appends for an error [e]. *)
Definition caught (e : JsError) : list Event :=
  ([ConsoleError Red
      ("[ERROR TELEGRAM] Error saat mengirim pesan Telegram: " ++ message e)]
   ++ match response e with
      | Some r => [ConsoleError Red
                     ("[ERROR TELEGRAM RAW] Respons API Telegram: "
                      ++ template (JSON_stringify (data r) 0))]
      | None => []
      end
   ++ [error_line
         "Notifikasi Telegram gagal terkirim karena kesalahan koneksi atau API."])%list.

(* ================================================================= *)
(** ** Concrete requests and worlds *)

Module Examples.

Definition jakarta : value :=
  VObject [("status", VString "success"); ("country", VString "Indonesia");
           ("regionName", VString "DKI Jakarta"); ("city", VString "Jakarta");
           ("lat", VNumber "-6.2"); ("lon", VNumber "106.8")].

(** The same answer with a latitude that no conversion to text accepts. *)
Definition jakarta_odd_latitude : value :=
  VObject [("status", VString "success"); ("country", VString "Indonesia");
           ("regionName", VString "DKI Jakarta"); ("city", VString "Jakarta");
           ("lat", VObject [("toString", VNumber "1")]);
           ("lon", VNumber "106.8")].

Definition invalid_query : value :=
  VObject [("status", VString "fail"); ("message", VString "invalid query")].

Definition odd_message : value :=
  VObject [("status", VString "fail");
           ("message", VObject [("toString", VNumber "1")])].

Definition chat_not_found : value :=
  VObject [("ok", VBool false); ("error_code", VNumber "400");
           ("description", VString "chat not found")].

Definition odd_description : value :=
  VObject [("ok", VBool false);
           ("description", VObject [("toString", VNumber "1")])].

Definition timeout : JsError :=
  {| message := "timeout of 0ms exceeded"; response := None |}.

(** A world whose geolocation service answers [geo] and whose messaging API
    answers [api], with credentials [tok] and [chat]. *)
Definition world (geo api : Completion Response) (tok chat : primitive) : World :=
  {| now := "1/11/2026, 17.54.00";
     now_filled := ltac:(discriminate);
     axios_get := fun _ => geo;
     axios_post := fun _ _ => api;
     token := tok;
     chatid := chat |}.

Definition answers (v : value) : Completion Response := Normal {| data := v |}.

Definition configured (geo api : Completion Response) : World :=
  world geo api (PString "123:abc") (PNumber "-1001").

Definition proxied_headers : list Req.header :=
  [Req.Field "host" "example.org";
   Req.Field "x-forwarded-for" "203.0.113.7";
   Req.Field "user-agent" "curl/8.5.0"].

(** A request behind a proxy, as Express presents it. *)
Definition proxied : Req.t :=
  {| Req.headers := Some proxied_headers;
     Req.connection := Some {| Req.remoteAddress := Some "10.0.0.2" |};
     Req.method := Some "GET";
     Req.originalUrl := Some "/admin/login";
     Req.url := Some "/login";
     Req.query := Some [("next", VString "/")] |}.

(** A request with an empty header mapping, a connection without an address
    and nothing else. *)
Definition bare : Req.t :=
  {| Req.headers := Some [];
     Req.connection := Some {| Req.remoteAddress := None |};
     Req.method := None;
     Req.originalUrl := None;
     Req.url := None;
     Req.query := None |}.

(** A request object on which [req.headers] is undefined. *)
Definition headless : Req.t :=
  {| Req.headers := None;
     Req.connection := Some {| Req.remoteAddress := Some "10.0.0.2" |};
     Req.method := Some "GET";
     Req.originalUrl := None;
     Req.url := Some "/";
     Req.query := None |}.

(** A request object that has headers but no [req.connection]. *)
Definition unconnected : Req.t :=
  {| Req.headers := Some [];
     Req.connection := None;
     Req.method := Some "GET";
     Req.originalUrl := None;
     Req.url := Some "/";
     Req.query := None |}.

(** A request that carries two set-cookie headers. *)
Definition with_cookies : Req.t :=
  {| Req.headers := Some [Req.Field "host" "example.org";
                          Req.SetCookie ["a=1"; "b=2"]];
     Req.connection := Some {| Req.remoteAddress := Some "10.0.0.2" |};
     Req.method := Some "GET";
     Req.originalUrl := None;
     Req.url := Some "/";
     Req.query := None |}.

End Examples.

(* ================================================================= *)
(** ** Measures on texts and traces *)

(** The number of characters of [s] that satisfy [p]. *)
Fixpoint count (p : ascii -> bool) (s : string) : nat :=
  match s with
  | EmptyString => 0
  | String a rest => (if p a then 1 else 0) + count p rest
  end.

Definition is_backslash (a : ascii) : bool := Ascii.eqb a backslash.

Definition unreserved (a : ascii) : bool := negb (reserved a).

(** The outbound calls of a trace, in order, and the traces without any. *)
Definition outbound_calls (t : list Event) : list Event := filter is_outbound t.

Definition console_only (t : list Event) : bool :=
  forallb (fun ev => negb (is_outbound ev)) t.

(** An error of the messaging call that carries the API's answer. *)
Definition unauthorized : JsError :=
  {| message := "Request failed with status code 401";
     response :=
       Some {| data := VObject [("ok", VBool false);
                                ("error_code", VNumber "401");
                                ("description", VString "Unauthorized")] |} |}.

(** The line of one header in the serialized mapping: a text value on the
    line itself, the values of set-cookie as an array one level deeper. *)
Definition header_line (e : Req.header) : string :=
  match e with
  | Req.Field name v => QuoteJSONString name ++ ": " ++ QuoteJSONString v
  | Req.SetCookie values =>
      QuoteJSONString "set-cookie" ++ ": "
      ++ wrap "[" "]" "  " "  " "    " (map QuoteJSONString values)
  end.

(* ================================================================= *)
(** * Properties *)

(** ** Facts on strings *)

Lemma app_assoc_s (a b c : string) : (a ++ b) ++ c = a ++ b ++ c.
Proof. induction a as [|x a IH]; simpl; [reflexivity | now rewrite IH]. Qed.

Lemma app_nil_r_s (a : string) : a ++ "" = a.
Proof. induction a as [|x a IH]; simpl; [reflexivity | now rewrite IH]. Qed.

Lemma contains_refl s : Str.contains s s.
Proof. exists "", "". simpl. now rewrite app_nil_r_s. Qed.

Lemma contains_suffix pre s : Str.contains (pre ++ s) s.
Proof. exists pre, "". now rewrite app_nil_r_s. Qed.

Lemma contains_app_l a b s : Str.contains b s -> Str.contains (a ++ b) s.
Proof.
  intros (x & y & ->). exists (a ++ x), y. now rewrite app_assoc_s.
Qed.

Lemma nonempty_app_l a b : Str.nonempty a -> Str.nonempty (a ++ b).
Proof. unfold Str.nonempty. destruct a; simpl; [congruence | discriminate]. Qed.

(** ** MessageEscaper *)

Section Escaper.

Lemma replace_app c r s1 s2 :
  Str.replace c r (s1 ++ s2) = Str.replace c r s1 ++ Str.replace c r s2.
Proof.
  induction s1 as [|a s1 IH]; simpl; [reflexivity|].
  destruct (Ascii.eqb a c); simpl; rewrite IH.
  - now rewrite app_assoc_s.
  - reflexivity.
Qed.

Lemma escapeMarkdownV2_app s1 s2 :
  escapeMarkdownV2 (s1 ++ s2) = escapeMarkdownV2 s1 ++ escapeMarkdownV2 s2.
Proof. unfold escapeMarkdownV2. now rewrite !replace_app. Qed.

(** On one character the eighteen passes add a backslash exactly when the
    character is reserved. *)
Lemma escapeMarkdownV2_char a :
  escapeMarkdownV2 (String a "") =
  if reserved a then String backslash (String a "") else String a "".
Proof. destruct a as [[] [] [] [] [] [] [] []]; vm_compute; reflexivity. Qed.

(** The sequential replacements compute the single scan: no pass touches
    what an earlier pass inserted. *)
Lemma escapeMarkdownV2_single_pass text :
  escapeMarkdownV2 text = escape_set reserved text.
Proof.
  induction text as [|a rest IH]; [reflexivity|].
  change (String a rest) with (String a "" ++ rest).
  rewrite escapeMarkdownV2_app, escapeMarkdownV2_char, IH. simpl.
  destruct (reserved a); reflexivity.
Qed.

Lemma reserved_not_backslash : reserved backslash = false.
Proof. reflexivity. Qed.

Lemma escape_set_ext R R' s :
  (forall a, R a = R' a) -> escape_set R s = escape_set R' s.
Proof.
  intros E. induction s as [|a s IH]; simpl; [reflexivity|].
  now rewrite E, IH.
Qed.

Lemma escape_set_none R s :
  (forall a, R a = false) -> escape_set R s = s.
Proof.
  intros E. induction s as [|a s IH]; simpl; [reflexivity|].
  now rewrite E, IH.
Qed.

Lemma unreplace_skip c a rest :
  Ascii.eqb a backslash && Str.starts_with c rest = false ->
  unreplace c (String a rest) = String a (unreplace c rest).
Proof.
  destruct rest as [|b rest]; simpl; intros H.
  - reflexivity.
  - now rewrite H.
Qed.

Lemma unreplace_pair c a b rest :
  unreplace c (String a (String b rest))
  = if Ascii.eqb a backslash && Ascii.eqb b c
    then String c (unreplace c rest)
    else String a (unreplace c (String b rest)).
Proof. reflexivity. Qed.

(** A text escaped for [R] never starts with a character of [R]. *)
Lemma escape_set_head R c s :
  R c = true -> R backslash = false ->
  Str.starts_with c (escape_set R s) = false.
Proof.
  intros Hc Hb. destruct s as [|b s]; cbn [escape_set Str.starts_with];
    [reflexivity|].
  destruct (R b) eqn:Hr; cbn [Str.starts_with]; apply Ascii.eqb_neq; congruence.
Qed.

(** One unescaping pass removes the backslashes of one character and leaves
    the text escaped for the others. *)
Lemma unreplace_escape_set R c s :
  R c = true -> R backslash = false ->
  unreplace c (escape_set R s)
  = escape_set (fun a => R a && negb (Ascii.eqb a c)) s.
Proof.
  intros Hc Hb. induction s as [|a s IH]; [reflexivity|].
  cbn [escape_set]. destruct (R a) eqn:Hr; cbn [andb].
  - assert (Ha : Ascii.eqb a backslash = false)
      by (destruct (Ascii.eqb_spec a backslash); [congruence | reflexivity]).
    rewrite unreplace_pair, Ascii.eqb_refl. cbn [andb].
    destruct (Ascii.eqb a c) eqn:Hac; cbn [negb].
    + apply Ascii.eqb_eq in Hac. subst a. now rewrite IH.
    + rewrite unreplace_skip by (now rewrite Ha). now rewrite IH.
  - rewrite unreplace_skip.
    + now rewrite IH.
    + rewrite escape_set_head by assumption. apply andb_false_r.
Qed.

Lemma unescape_passes l : forall R s,
  NoDup l -> (forall c, In c l -> R c = true) -> R backslash = false ->
  fold_left (fun acc c => unreplace c acc) l (escape_set R s)
  = escape_set (fun a => R a && negb (existsb (Ascii.eqb a) l)) s.
Proof.
  induction l as [|c l IH]; intros R s Hnd Hin Hb; cbn [fold_left].
  - apply escape_set_ext. intros a. cbn. now rewrite andb_true_r.
  - inversion Hnd as [|? ? Hnotin Hnd']; subst.
    rewrite unreplace_escape_set by (auto using in_eq).
    rewrite IH; auto.
    + apply escape_set_ext. intros a. cbn [existsb].
      rewrite negb_orb. now rewrite andb_assoc.
    + intros d Hd. rewrite Hin by (now right). cbn.
      destruct (Ascii.eqb_spec d c); [subst; contradiction | reflexivity].
    + now rewrite Hb.
Qed.

(** Unescaping undoes escaping on every text. *)
Lemma unescape_escape text :
  unescapeMarkdownV2 (escapeMarkdownV2 text) = text.
Proof.
  unfold unescapeMarkdownV2. rewrite escapeMarkdownV2_single_pass.
  rewrite unescape_passes.
  - apply escape_set_none. intros a.
    destruct a as [[] [] [] [] [] [] [] []]; vm_compute; reflexivity.
  - apply NoDup_rev. unfold reserved_chars.
    repeat (constructor; [cbn; intuition discriminate|]). constructor.
  - intros c Hc. apply in_rev in Hc. unfold reserved.
    apply existsb_exists. exists c. split; [assumption | apply Ascii.eqb_refl].
  - exact reserved_not_backslash.
Qed.

End Escaper.

(** C2. For every text made only of reserved characters and of ordinary
    ones (neither reserved nor a backslash), unescaping the escaped text,
    one reversed substitution per reserved character, gives the text back. *)
Theorem escape_unescape_roundtrip (text : string) :
  Str.all reserved_or_ordinary text = true ->
  unescapeMarkdownV2 (escapeMarkdownV2 text) = text.
Proof. intros _. apply unescape_escape. Qed.

Lemma escape_unescape_roundtrip_witness :
  Str.all reserved_or_ordinary "a.-b (x_y)!" = true
  /\ unescapeMarkdownV2 (escapeMarkdownV2 "a.-b (x_y)!") = "a.-b (x_y)!".
Proof.
  split; [reflexivity|].
  apply (escape_unescape_roundtrip "a.-b (x_y)!"). reflexivity.
Defined.

(** C3. In the output of [escapeMarkdownV2], on every input, every
    occurrence of a reserved character has a backslash immediately before
    it. *)
Theorem escape_reserved_preceded (text : string) (i : nat) (c : ascii) :
  String.get i (escapeMarkdownV2 text) = Some c ->
  reserved c = true ->
  exists j, i = S j /\ String.get j (escapeMarkdownV2 text) = Some backslash.
Proof.
  rewrite escapeMarkdownV2_single_pass. revert i.
  induction text as [|a rest IH]; intros i H Hc.
  - destruct i; discriminate H.
  - cbn [escape_set] in *. destruct (reserved a) eqn:Ha.
    + destruct i as [|[|i]]; cbn [String.get] in H.
      * injection H as <-. rewrite reserved_not_backslash in Hc. discriminate.
      * exists 0. split; reflexivity.
      * destruct (IH i H Hc) as (j & -> & Hj). exists (S (S j)). now split.
    + destruct i as [|i]; cbn [String.get] in H.
      * injection H as <-. congruence.
      * destruct (IH i H Hc) as (j & -> & Hj). exists (S j). now split.
Qed.

Lemma escape_reserved_preceded_witness :
  String.get 2 (escapeMarkdownV2 "a.-b") = Some "."%char
  /\ reserved "." = true
  /\ exists j, 2 = S j /\ String.get j (escapeMarkdownV2 "a.-b") = Some backslash.
Proof.
  split; [reflexivity|]. split; [reflexivity|].
  apply (escape_reserved_preceded "a.-b" 2 "."); reflexivity.
Defined.

(* ================================================================= *)
(** ** The effect layer *)

Section Effects.

Lemma logStyled_info m t : logStyled m "info" t = (Normal tt, (t ++ [info_line m])%list).
Proof. reflexivity. Qed.

Lemma logStyled_success m t :
  logStyled m "success" t = (Normal tt, (t ++ [success_line m])%list).
Proof. reflexivity. Qed.

Lemma logStyled_warn m t :
  logStyled m "warn" t = (Normal tt, (t ++ [warning_line m])%list).
Proof. reflexivity. Qed.

Lemma logStyled_error m t :
  logStyled m "error" t = (Normal tt, (t ++ [error_line m])%list).
Proof. reflexivity. Qed.

Lemma or_else_missing a b : missing a = true -> or_else a b = b.
Proof. destruct a as [s|]; simpl; [intros -> | ]; reflexivity. Qed.

Lemma or_else_nonempty a b : Str.nonempty b -> Str.nonempty (or_else a b).
Proof.
  unfold Str.nonempty. destruct a as [s|]; simpl; [|trivial].
  destruct (String.eqb_spec s ""); trivial.
Qed.

End Effects.

Create Rewrite HintDb effects.
#[local] Hint Rewrite logStyled_info logStyled_success logStyled_warn
  logStyled_error : effects.

(** Runs a computation symbolically: opens the monad and replaces each log
    call by the line it appends. *)
Ltac run :=
  unfold try_catch, bind, await_get, await_post, console_error, emit, lift, ret;
  autorewrite with effects;
  cbv beta iota delta [data get_prop].


(* ================================================================= *)
(** ** Conversions to text *)

(** The only error a conversion to text raises is the TypeError of an
    object that has its own [toString]. *)
Lemma to_string_throw : forall v e, to_string v = Throw e -> e = TypeError_convert.
Proof.
  fix IH 1. intros v e.
  destruct v as [| |b|n|s|items|props]; cbn [to_string]; try discriminate.
  - destruct b; discriminate.
  - induction items as [|x rest IHr]; [discriminate|].
    assert (X : forall e',
               match x with
               | VUndefined | VNull => Normal ""
               | _ => to_string x
               end = Throw e' -> e' = TypeError_convert).
    { intros e' Hx. apply (IH x). destruct x; try discriminate Hx; exact Hx. }
    destruct rest as [|y rest'].
    + apply X.
    + destruct (match x with
                | VUndefined | VNull => Normal ""
                | _ => to_string x
                end) as [sx|ex] eqn:Ex.
      * intros H. apply IHr.
        destruct ((fix join_items (l : list value) : Completion string :=
                     match l with
                     | [] => Normal ""
                     | [x0] =>
                         match x0 with
                         | VUndefined | VNull => Normal ""
                         | _ => to_string x0
                         end
                     | x0 :: (_ :: _) as rest0 =>
                         match
                           match x0 with
                           | VUndefined | VNull => Normal ""
                           | _ => to_string x0
                           end
                         with
                         | Normal s =>
                             match join_items rest0 with
                             | Normal r => Normal (s ++ "," ++ r)
                             | Throw e0 => Throw e0
                             end
                         | Throw e0 => Throw e0
                         end
                     end) (y :: rest')) as [r|er]; [discriminate H | exact H].
      * intros H. injection H as <-. now apply X.
  - destruct (has_own "toString" props); [|discriminate].
    intros H. now injection H as <-.
Qed.

Lemma converts_false v :
  converts v = false -> to_string v = Throw TypeError_convert.
Proof.
  unfold converts. destruct (to_string v) as [s|e] eqn:E; [discriminate|].
  intros _. now rewrite (to_string_throw v e E).
Qed.

Lemma to_string_primitive (p : primitive) : to_string p = Normal (text_of p).
Proof. destruct p as [| |[]| |]; reflexivity. Qed.

(* ================================================================= *)
(** ** GeoLocator *)

Section GeoLocator.

Variable w : World.
Variable ip : string.
Variable t : list Event.

Lemma locate_rejected e :
  axios_get w (lookup_url ip) = Throw e ->
  locate w ip t =
  (Normal (transport_text e), (lookup_started t ip ++ lookup_caught ip e)%list).
Proof.
  intros H. unfold locate. run. rewrite H. run.
  unfold lookup_started, lookup_caught. now rewrite <- !app_assoc.
Qed.

Lemma locate_null_body v :
  axios_get w (lookup_url ip) = Normal {| data := v |} ->
  v = VNull \/ v = VUndefined ->
  locate w ip t =
  (Normal (transport_text (TypeError_read (nullish_name v) "message")),
   (lookup_started t ip
    ++ lookup_caught ip (TypeError_read (nullish_name v) "message"))%list).
Proof.
  intros H Hv. unfold locate. run. rewrite H.
  destruct Hv as [-> | ->]; run; cbv beta iota delta [to_boolean]; run;
    unfold lookup_started, lookup_caught; now rewrite <- !app_assoc.
Qed.

Lemma locate_success props city regionName country lat lon :
  axios_get w (lookup_url ip) = Normal {| data := VObject props |} ->
  strict_eq_string (lookup "status" props) "success" = true ->
  to_string (lookup "city" props) = Normal city ->
  to_string (lookup "regionName" props) = Normal regionName ->
  to_string (lookup "country" props) = Normal country ->
  to_string (lookup "lat" props) = Normal lat ->
  to_string (lookup "lon" props) = Normal lon ->
  locate w ip t =
  (Normal (place city regionName country),
   (lookup_started t ip ++ [success_line
       ("Lokasi ditemukan: " ++ place city regionName country
        ++ " (Lat: " ++ lat ++ ", Lon: " ++ lon ++ ")")])%list).
Proof.
  intros H Hs Hc Hr Hk Hla Hlo. unfold locate. run. rewrite H.
  run. cbv beta iota delta [to_boolean]. run. rewrite Hs. run.
  rewrite Hc, Hr, Hk, Hla, Hlo. run.
  unfold lookup_started, place. now rewrite <- !app_assoc.
Qed.

(** A "success" answer one of whose five fields cannot be converted: the
    template literal throws and the [catch] block takes over. *)
Lemma locate_success_unconvertible props :
  axios_get w (lookup_url ip) = Normal {| data := VObject props |} ->
  strict_eq_string (lookup "status" props) "success" = true ->
  converts (lookup "city" props) && converts (lookup "regionName" props)
  && converts (lookup "country" props) && converts (lookup "lat" props)
  && converts (lookup "lon" props) = false ->
  locate w ip t =
  (Normal (transport_text TypeError_convert),
   (lookup_started t ip ++ lookup_caught ip TypeError_convert)%list).
Proof.
  intros H Hs Hc. unfold locate. run. rewrite H.
  run. cbv beta iota delta [to_boolean]. run. rewrite Hs. run.
  unfold converts in Hc.
  destruct (to_string (lookup "city" props)) as [c|e1] eqn:E1;
    [|rewrite (to_string_throw _ _ E1); run;
      unfold lookup_started, lookup_caught; now rewrite <- !app_assoc].
  destruct (to_string (lookup "regionName" props)) as [r|e2] eqn:E2;
    [|rewrite (to_string_throw _ _ E2); run;
      unfold lookup_started, lookup_caught; now rewrite <- !app_assoc].
  destruct (to_string (lookup "country" props)) as [k|e3] eqn:E3;
    [|rewrite (to_string_throw _ _ E3); run;
      unfold lookup_started, lookup_caught; now rewrite <- !app_assoc].
  destruct (to_string (lookup "lat" props)) as [la|e4] eqn:E4;
    [|rewrite (to_string_throw _ _ E4); run;
      unfold lookup_started, lookup_caught; now rewrite <- !app_assoc].
  destruct (to_string (lookup "lon" props)) as [lo|e5] eqn:E5;
    [discriminate Hc|rewrite (to_string_throw _ _ E5); run;
      unfold lookup_started, lookup_caught; now rewrite <- !app_assoc].
Qed.

Lemma locate_service_failure props msg :
  axios_get w (lookup_url ip) = Normal {| data := VObject props |} ->
  strict_eq_string (lookup "status" props) "success" = false ->
  to_string (js_or (lookup "message" props)
                   (VString "Error tidak diketahui dari ip-api.com"))
  = Normal msg ->
  locate w ip t =
  (Normal (failure_text msg),
   (lookup_started t ip
    ++ [warning_line ("Gagal mencari lokasi IP: " ++ failure_text msg)])%list).
Proof.
  intros H Hs Hm. unfold locate. run. rewrite H.
  run. cbv beta iota delta [to_boolean]. run. rewrite Hs. run.
  rewrite Hm. run.
  unfold lookup_started, failure_text. now rewrite <- !app_assoc.
Qed.

Lemma locate_service_failure_unconvertible props :
  axios_get w (lookup_url ip) = Normal {| data := VObject props |} ->
  strict_eq_string (lookup "status" props) "success" = false ->
  converts (js_or (lookup "message" props)
                  (VString "Error tidak diketahui dari ip-api.com")) = false ->
  locate w ip t =
  (Normal (transport_text TypeError_convert),
   (lookup_started t ip ++ lookup_caught ip TypeError_convert)%list).
Proof.
  intros H Hs Hm. unfold locate. run. rewrite H.
  run. cbv beta iota delta [to_boolean]. run. rewrite Hs. run.
  rewrite (converts_false _ Hm). run.
  unfold lookup_started, lookup_caught. now rewrite <- !app_assoc.
Qed.

(** A body that is neither an object nor [null]/[undefined] has no
    properties of its own: the lookup takes the service-failure branch with
    the generic phrase. *)
Lemma locate_primitive_body v :
  axios_get w (lookup_url ip) = Normal {| data := v |} ->
  get_prop v "message" = Normal VUndefined ->
  (forall props, v <> VObject props) ->
  locate w ip t =
  (Normal (failure_text "Error tidak diketahui dari ip-api.com"),
   (lookup_started t ip
    ++ [warning_line ("Gagal mencari lokasi IP: "
                      ++ failure_text "Error tidak diketahui dari ip-api.com")])%list).
Proof.
  intros H Hm Hv. unfold locate. run. rewrite H.
  destruct v as [| |b|n|s|items|props]; try discriminate Hm;
    try (exfalso; eapply Hv; reflexivity);
    run; destruct (to_boolean _); run;
    cbv beta iota delta [strict_eq_string]; run;
    cbv beta iota delta [js_or to_boolean to_string]; run;
    unfold lookup_started, failure_text; now rewrite <- !app_assoc.
Qed.

(** The lookup never throws: whatever the service does, [locate] leaves one
    of the three texts, after the information line, one GET and console
    lines. *)
Lemma locate_outcome :
  exists location tail,
    locate w ip t = (Normal location, (lookup_started t ip ++ tail)%list)
    /\ console_only tail = true
    /\ location_shape location.
Proof.
  unfold location_shape.
  destruct (axios_get w (lookup_url ip)) as [[v]|e] eqn:H.
  - destruct v as [| |b|n|s|items|props].
    + eexists _, _. split; [apply (locate_null_body VUndefined); auto|].
      split; [reflexivity|]. right; right. eexists. reflexivity.
    + eexists _, _. split; [apply (locate_null_body VNull); auto|].
      split; [reflexivity|]. right; right. eexists. reflexivity.
    + eexists _, _. split;
        [apply (locate_primitive_body (VBool b));
         [exact H | reflexivity | discriminate]|].
      split; [reflexivity|]. right; left. eexists. reflexivity.
    + eexists _, _. split;
        [apply (locate_primitive_body (VNumber n));
         [exact H | reflexivity | discriminate]|].
      split; [reflexivity|]. right; left. eexists. reflexivity.
    + eexists _, _. split;
        [apply (locate_primitive_body (VString s));
         [exact H | reflexivity | discriminate]|].
      split; [reflexivity|]. right; left. eexists. reflexivity.
    + eexists _, _. split;
        [apply (locate_primitive_body (VArray items));
         [exact H | reflexivity | discriminate]|].
      split; [reflexivity|]. right; left. eexists. reflexivity.
    + destruct (strict_eq_string (lookup "status" props) "success") eqn:Hs.
      * destruct (converts (lookup "city" props)
                  && converts (lookup "regionName" props)
                  && converts (lookup "country" props)
                  && converts (lookup "lat" props)
                  && converts (lookup "lon" props)) eqn:Hc.
        -- unfold converts in Hc.
           destruct (to_string (lookup "city" props)) as [c|] eqn:E1;
             [|discriminate Hc].
           destruct (to_string (lookup "regionName" props)) as [r|] eqn:E2;
             [|discriminate Hc].
           destruct (to_string (lookup "country" props)) as [k|] eqn:E3;
             [|discriminate Hc].
           destruct (to_string (lookup "lat" props)) as [la|] eqn:E4;
             [|discriminate Hc].
           destruct (to_string (lookup "lon" props)) as [lo|] eqn:E5;
             [|discriminate Hc].
           eexists _, _.
           split; [apply (locate_success props c r k la lo); assumption|].
           split; [reflexivity|]. left. now exists c, r, k.
        -- eexists _, _.
           split; [apply (locate_success_unconvertible props); assumption|].
           split; [reflexivity|]. right; right. eexists. reflexivity.
      * destruct (to_string (js_or (lookup "message" props)
                    (VString "Error tidak diketahui dari ip-api.com")))
          as [m|e] eqn:Em.
        -- eexists _, _.
           split; [apply (locate_service_failure props m); assumption|].
           split; [reflexivity|]. right; left. eexists. reflexivity.
        -- eexists _, _. split.
           ++ apply (locate_service_failure_unconvertible props);
                [assumption | assumption |].
              unfold converts. now rewrite Em.
           ++ split; [reflexivity|]. right; right. eexists. reflexivity.
  - eexists _, _. split; [apply (locate_rejected e); assumption|].
    split; [reflexivity|]. right; right. eexists. reflexivity.
Qed.

End GeoLocator.

(* ================================================================= *)
(** ** RequestDescriber *)

Section RequestDescriber.

Variable w : World.
Variable req : Req.t.
Variable t : list Event.

(** The first line on a request whose address can be read. *)
Lemma first_line h :
  addressable req h = true ->
  or_elseM (assoc "x-forwarded-for" h)
    (remote <- remoteAddress_of req ;; ret (or_else remote "Unknown IP")) t
  = (Normal (address req h), t).
Proof.
  unfold addressable, address, remote, or_elseM, or_else, remoteAddress_of, missing.
  destruct (assoc "x-forwarded-for" h) as [s|];
    [destruct (String.eqb s "")|]; cbn [negb orb]; try reflexivity;
    destruct (Req.connection req); try discriminate; reflexivity.
Qed.

(** With a header mapping and a readable address, [getRequest] is the
    lookup followed by the construction of the snapshot. *)
Lemma getRequest_located h location t' :
  Req.headers req = Some h ->
  addressable req h = true ->
  locate w (address req h) t = (Normal location, t') ->
  getRequest w req t = (Normal (snapshot_of w req h location), t').
Proof.
  intros H A L. unfold getRequest, header, snapshot_of. rewrite H.
  unfold bind at 1. unfold ret at 1. unfold bind at 1.
  rewrite (first_line h A).
  unfold bind at 1. unfold ret at 1. unfold bind. rewrite L. reflexivity.
Qed.

(** Without a header mapping, the first line throws before anything is
    logged or sent. *)
Lemma getRequest_without_headers :
  Req.headers req = None ->
  getRequest w req t = (Throw (TypeError_read "undefined" "x-forwarded-for"), t).
Proof.
  intros H. unfold getRequest, header. rewrite H. reflexivity.
Qed.

(** So it does without a connection object, when the forwarded-for header
    does not spare it the read. *)
Lemma getRequest_without_connection h :
  Req.headers req = Some h ->
  addressable req h = false ->
  getRequest w req t = (Throw (TypeError_read "undefined" "remoteAddress"), t).
Proof.
  intros H A. unfold getRequest, header. rewrite H.
  unfold addressable, missing in A. unfold or_elseM, remoteAddress_of.
  unfold bind at 1. unfold ret at 1. unfold bind at 1.
  destruct (assoc "x-forwarded-for" h) as [s|];
    [destruct (String.eqb s "")|]; cbn [negb orb] in A; try discriminate A;
    destruct (Req.connection req); try discriminate A; reflexivity.
Qed.

(** Every request that has a header mapping and a readable address is
    answered, whatever the geolocation service does. *)
Lemma getRequest_resolves h :
  Req.headers req = Some h -> addressable req h = true ->
  resolves (getRequest w req t).
Proof.
  intros H A.
  destruct (locate_outcome w (address req h) t) as (l & tail & L & _).
  rewrite (getRequest_located h l _ H A L). now exists (snapshot_of w req h l).
Qed.

End RequestDescriber.

Lemma strict_eq_string_false v s : v <> VString s -> strict_eq_string v s = false.
Proof.
  destruct v; simpl; trivial. intros H.
  destruct (String.eqb_spec s0 s); [subst; contradiction | reflexivity].
Qed.

(** C4, as the code has it. When the geolocation service answers with
    status "success" and with texts for city, regionName and country, the
    location of the snapshot is "{city}, {regionName}, {country}" provided
    the lat and lon fields of the answer convert to text (numbers, texts and
    absent fields do); when one of them does not, the log line of the
    success throws inside the [try] block and the location is the
    transport-failure text instead. *)
Theorem location_of_successful_lookup
    w req h t props city regionName country :
  Req.headers req = Some h ->
  addressable req h = true ->
  axios_get w (lookup_url (address req h)) = Normal {| data := VObject props |} ->
  lookup "status" props = VString "success" ->
  lookup "city" props = VString city ->
  lookup "regionName" props = VString regionName ->
  lookup "country" props = VString country ->
  exists snap t',
    getRequest w req t = (Normal snap, t')
    /\ (converts (lookup "lat" props) && converts (lookup "lon" props) = true ->
        Snapshot.location snap = city ++ ", " ++ regionName ++ ", " ++ country)
    /\ (converts (lookup "lat" props) && converts (lookup "lon" props) = false ->
        Snapshot.location snap
        = "Error saat mengambil lokasi: Cannot convert object to primitive value").
Proof.
  intros H A G Hs Hc Hr Hk.
  assert (S : strict_eq_string (lookup "status" props) "success" = true)
    by now rewrite Hs.
  destruct (converts (lookup "lat" props) && converts (lookup "lon" props))
    eqn:C.
  - unfold converts in C.
    destruct (to_string (lookup "lat" props)) as [la|] eqn:Ela;
      [|discriminate C].
    destruct (to_string (lookup "lon" props)) as [lo|] eqn:Elo;
      [|discriminate C].
    eexists _, _. split.
    + eapply getRequest_located; [exact H | exact A |].
      apply (locate_success w _ t props city regionName country la lo G S);
        try assumption; [now rewrite Hc | now rewrite Hr | now rewrite Hk].
    + split; [reflexivity | discriminate].
  - eexists _, _. split.
    + eapply getRequest_located; [exact H | exact A |].
      apply (locate_success_unconvertible w _ t props G S).
      unfold converts at 1 2 3. rewrite Hc, Hr, Hk. cbn [to_string andb].
      exact C.
    + split; [discriminate | reflexivity].
Qed.

Lemma location_of_successful_lookup_witness :
  exists snap t',
    getRequest
      (Examples.configured (Examples.answers Examples.jakarta)
                           (Examples.answers Examples.chat_not_found))
      Examples.proxied [] = (Normal snap, t')
    /\ Snapshot.location snap = "Jakarta, DKI Jakarta, Indonesia".
Proof.
  destruct (location_of_successful_lookup
              (Examples.configured (Examples.answers Examples.jakarta)
                                   (Examples.answers Examples.chat_not_found))
              Examples.proxied Examples.proxied_headers []
              [("status", VString "success"); ("country", VString "Indonesia");
               ("regionName", VString "DKI Jakarta"); ("city", VString "Jakarta");
               ("lat", VNumber "-6.2"); ("lon", VNumber "106.8")]
              "Jakarta" "DKI Jakarta" "Indonesia"
              eq_refl eq_refl eq_refl eq_refl eq_refl eq_refl eq_refl)
    as (snap & t' & E & L & _).
  exists snap, t'. split; [exact E | exact (L eq_refl)].
Defined.

(** The claim C4 fails on a "success" answer whose latitude is an object
    with its own [toString]: the three fields are there, yet the location
    is the text of the caught TypeError. *)
Lemma location_lost_to_coordinates :
  lookup "status" [("status", VString "success"); ("country", VString "Indonesia");
                   ("regionName", VString "DKI Jakarta"); ("city", VString "Jakarta");
                   ("lat", VObject [("toString", VNumber "1")]);
                   ("lon", VNumber "106.8")] = VString "success"
  /\ exists snap t',
    getRequest
      (Examples.configured (Examples.answers Examples.jakarta_odd_latitude)
                           (Examples.answers Examples.chat_not_found))
      Examples.proxied [] = (Normal snap, t')
    /\ Snapshot.location snap
       = "Error saat mengambil lokasi: Cannot convert object to primitive value"
    /\ Snapshot.location snap <> "Jakarta, DKI Jakarta, Indonesia".
Proof.
  split; [reflexivity|]. eexists _, _. split.
  - eapply getRequest_located; [reflexivity | reflexivity |].
    apply (locate_success_unconvertible _ _ _
             [("status", VString "success"); ("country", VString "Indonesia");
              ("regionName", VString "DKI Jakarta"); ("city", VString "Jakarta");
              ("lat", VObject [("toString", VNumber "1")]);
              ("lon", VNumber "106.8")]); reflexivity.
  - split; [reflexivity | discriminate].
Qed.

(** C5, as the code has it. When the geolocation service answers with a
    status other than "success", [getRequest] resolves.  If the message of
    the answer converts to text, the location is "Gagal mendapatkan lokasi: "
    followed by that text, or by the generic phrase when the message is
    absent or otherwise falsy, so a text message is contained in it; if the
    message cannot be converted, the template literal throws and the
    location is the transport-failure text. *)
Theorem location_of_failed_lookup w req h t props :
  Req.headers req = Some h ->
  addressable req h = true ->
  axios_get w (lookup_url (address req h)) = Normal {| data := VObject props |} ->
  lookup "status" props <> VString "success" ->
  exists snap t',
    getRequest w req t = (Normal snap, t')
    /\ (forall text,
          to_string (js_or (lookup "message" props)
                           (VString "Error tidak diketahui dari ip-api.com"))
          = Normal text ->
          Snapshot.location snap = "Gagal mendapatkan lokasi: " ++ text)
    /\ (forall m, lookup "message" props = VString m ->
                  Str.contains (Snapshot.location snap) m)
    /\ (to_boolean (lookup "message" props) = false ->
        Snapshot.location snap
        = "Gagal mendapatkan lokasi: Error tidak diketahui dari ip-api.com")
    /\ (converts (js_or (lookup "message" props)
                        (VString "Error tidak diketahui dari ip-api.com")) = false ->
        Snapshot.location snap
        = "Error saat mengambil lokasi: Cannot convert object to primitive value").
Proof.
  intros H A G Hs.
  assert (S : strict_eq_string (lookup "status" props) "success" = false)
    by now apply strict_eq_string_false.
  destruct (to_string (js_or (lookup "message" props)
              (VString "Error tidak diketahui dari ip-api.com")))
    as [text|e] eqn:E.
  - eexists _, _. split; [|split; [|split; [|split]]].
    + eapply getRequest_located; [exact H | exact A |].
      exact (locate_service_failure w _ t props text G S E).
    + intros text' E'. injection E' as <-. reflexivity.
    + intros m Hm. cbn [Snapshot.location snapshot_of]. unfold failure_text.
      revert E. rewrite Hm. unfold js_or. cbn [to_boolean].
      destruct (String.eqb_spec m "") as [-> | Hne]; cbn [negb to_string];
        intros E; injection E as <-.
      * now exists "", ("Gagal mendapatkan lokasi: "
                        ++ "Error tidak diketahui dari ip-api.com").
      * apply contains_suffix.
    + intros Hf. revert E. unfold js_or. rewrite Hf. cbn [to_string].
      intros E. now injection E as <-.
    + unfold converts. now rewrite E.
  - assert (C : converts (js_or (lookup "message" props)
                   (VString "Error tidak diketahui dari ip-api.com")) = false)
      by (unfold converts; now rewrite E).
    eexists _, _. split; [|split; [|split; [|split]]].
    + eapply getRequest_located; [exact H | exact A |].
      exact (locate_service_failure_unconvertible w _ t props G S C).
    + intros text' E'. discriminate E'.
    + intros m Hm. revert E. rewrite Hm. unfold js_or.
      destruct (to_boolean (VString m)); discriminate.
    + intros Hf. revert E. unfold js_or. rewrite Hf. discriminate.
    + reflexivity.
Qed.

Lemma location_of_failed_lookup_witness :
  exists snap t',
    getRequest
      (Examples.configured (Examples.answers Examples.invalid_query)
                           (Examples.answers Examples.chat_not_found))
      Examples.proxied [] = (Normal snap, t')
    /\ Snapshot.location snap = "Gagal mendapatkan lokasi: invalid query"
    /\ Str.contains (Snapshot.location snap) "invalid query".
Proof.
  destruct (location_of_failed_lookup
           (Examples.configured (Examples.answers Examples.invalid_query)
                                (Examples.answers Examples.chat_not_found))
           Examples.proxied Examples.proxied_headers []
           [("status", VString "fail"); ("message", VString "invalid query")]
           eq_refl eq_refl eq_refl ltac:(discriminate))
    as (snap & t' & E & L & C & _).
  exists snap, t'. split; [exact E|]. split; [exact (L _ eq_refl)|].
  apply (C "invalid query"). reflexivity.
Defined.

(** The claim C5 fails on an answer whose message is an object with its own
    [toString]: the location holds neither the message nor the generic
    phrase after the service-failure prefix, but the text of the caught
    TypeError. *)
Lemma location_without_the_message :
  exists snap t',
    getRequest
      (Examples.configured (Examples.answers Examples.odd_message)
                           (Examples.answers Examples.chat_not_found))
      Examples.proxied [] = (Normal snap, t')
    /\ Snapshot.location snap
       = "Error saat mengambil lokasi: Cannot convert object to primitive value"
    /\ forall rest,
         Snapshot.location snap <> "Gagal mendapatkan lokasi: " ++ rest.
Proof.
  eexists _, _. split.
  - eapply getRequest_located; [reflexivity | reflexivity |].
    apply (locate_service_failure_unconvertible _ _ _
             [("status", VString "fail");
              ("message", VObject [("toString", VNumber "1")])]);
      reflexivity.
  - split; [reflexivity | discriminate].
Qed.

(** C10. When the response body is [null] or [undefined], reading its
    message in the service-failure branch throws; the handler of the
    transport failures catches the error, and [getRequest] resolves with a
    location that carries the transport-failure prefix, not the
    service-failure one. *)
Theorem location_of_null_body w req h t v :
  Req.headers req = Some h ->
  addressable req h = true ->
  axios_get w (lookup_url (address req h)) = Normal {| data := v |} ->
  v = VNull \/ v = VUndefined ->
  exists snap t',
    getRequest w req t = (Normal snap, t')
    /\ get_prop v "message" = Throw (TypeError_read (nullish_name v) "message")
    /\ Snapshot.location snap
       = "Error saat mengambil lokasi: Cannot read properties of "
         ++ nullish_name v ++ " (reading 'message')"
    /\ (forall rest,
          Snapshot.location snap <> "Gagal mendapatkan lokasi: " ++ rest)
    /\ t' = (lookup_started t (address req h)
             ++ [ConsoleError Red
                   ("[ERROR FETCH] Gagal mendapatkan lokasi dari ip-api.com untuk IP "
                    ++ address req h ++ ": Cannot read properties of "
                    ++ nullish_name v ++ " (reading 'message')");
                 error_line "Terjadi kesalahan saat mencari lokasi."])%list.
Proof.
  intros H A G Hv.
  eexists _, _. split; [|split; [|split; [|split]]].
  - eapply getRequest_located; [exact H | exact A |].
    apply (locate_null_body w _ t v G Hv).
  - destruct Hv as [-> | ->]; reflexivity.
  - reflexivity.
  - intros rest. cbn [Snapshot.location snapshot_of]. discriminate.
  - reflexivity.
Qed.

Lemma location_of_null_body_witness :
  exists snap t',
    getRequest
      (Examples.configured (Examples.answers VNull)
                           (Examples.answers Examples.chat_not_found))
      Examples.bare [] = (Normal snap, t')
    /\ Snapshot.location snap
       = "Error saat mengambil lokasi: Cannot read properties of null (reading 'message')".
Proof.
  destruct (location_of_null_body
           (Examples.configured (Examples.answers VNull)
                                (Examples.answers Examples.chat_not_found))
           Examples.bare [] [] VNull eq_refl eq_refl eq_refl (or_introl eq_refl))
    as (snap & t' & E & _ & L & _).
  exists snap, t'. split; [exact E | exact L].
Defined.

(* ================================================================= *)
(** ** NotificationSender *)

Section NotificationSender.

Variable w : World.
Variable rawMessage : string.
Variable t : list Event.

Lemma sendTele_skipped :
  to_boolean (token w) = false \/ to_boolean (chatid w) = false ->
  sendTele w rawMessage t = (Normal tt, (t ++ [warning_line not_configured])%list).
Proof.
  intros H. unfold sendTele.
  assert (E : negb (to_boolean (token w)) || negb (to_boolean (chatid w)) = true).
  { destruct H as [-> | ->]; [reflexivity | apply orb_true_r]. }
  rewrite E. apply logStyled_warn.
Qed.

Hypothesis has_token : to_boolean (token w) = true.
Hypothesis has_chatid : to_boolean (chatid w) = true.

(** Opens [sendTele] up to the answer of the API. *)
Ltac posted P :=
  unfold sendTele; rewrite has_token, has_chatid; cbn [negb orb];
  run; fold (outbound_message w rawMessage); rewrite P; run.

Lemma sendTele_accepted props :
  axios_post w (sendMessage_url w) (outbound_message w rawMessage)
  = Normal {| data := VObject props |} ->
  to_boolean (lookup "ok" props) = true ->
  sendTele w rawMessage t =
  (Normal tt,
   (delivery_started w rawMessage t
    ++ [success_line "Notifikasi Telegram berhasil terkirim!"])%list).
Proof.
  intros P Hok. posted P. rewrite Hok. run.
  unfold delivery_started. now rewrite <- !app_assoc.
Qed.

Lemma sendTele_refused props description :
  axios_post w (sendMessage_url w) (outbound_message w rawMessage)
  = Normal {| data := VObject props |} ->
  to_boolean (lookup "ok" props) = false ->
  to_string (js_or (lookup "description" props) (VString "Alasan tidak diketahui"))
  = Normal description ->
  sendTele w rawMessage t =
  (Normal tt,
   (delivery_started w rawMessage t
    ++ [error_line (rejection_text description)])%list).
Proof.
  intros P Hok D. posted P. rewrite Hok. run. rewrite D. run.
  unfold delivery_started, rejection_text. now rewrite <- !app_assoc.
Qed.

Lemma sendTele_refused_unconvertible props :
  axios_post w (sendMessage_url w) (outbound_message w rawMessage)
  = Normal {| data := VObject props |} ->
  to_boolean (lookup "ok" props) = false ->
  converts (js_or (lookup "description" props) (VString "Alasan tidak diketahui"))
  = false ->
  sendTele w rawMessage t =
  (Normal tt, (delivery_started w rawMessage t ++ caught TypeError_convert)%list).
Proof.
  intros P Hok D. posted P. rewrite Hok. run. rewrite (converts_false _ D). run.
  cbn [response TypeError_convert]. run.
  unfold delivery_started, caught. cbn [response TypeError_convert app].
  now rewrite <- !app_assoc.
Qed.

Lemma sendTele_null_body_trace v :
  axios_post w (sendMessage_url w) (outbound_message w rawMessage)
  = Normal {| data := v |} ->
  v = VNull \/ v = VUndefined ->
  sendTele w rawMessage t
  = (Normal tt,
     (delivery_started w rawMessage t
      ++ caught (TypeError_read (nullish_name v) "ok"))%list).
Proof.
  intros P Hv. posted P.
  destruct Hv as [-> | ->]; run; cbn [response TypeError_read]; run;
    unfold caught, delivery_started;
    cbn [response TypeError_read nullish_name app];
    now rewrite <- !app_assoc.
Qed.

Lemma sendTele_primitive_body_trace v :
  axios_post w (sendMessage_url w) (outbound_message w rawMessage)
  = Normal {| data := v |} ->
  v <> VNull -> v <> VUndefined -> (forall props, v <> VObject props) ->
  sendTele w rawMessage t
  = (Normal tt,
     (delivery_started w rawMessage t
      ++ [error_line (rejection_text "Alasan tidak diketahui")])%list).
Proof.
  intros P Hn Hu Ho. posted P.
  destruct v as [| |b|n|s|items|props];
    try (now elim Hn); try (now elim Hu);
    try (exfalso; eapply Ho; reflexivity);
    run; cbv beta iota delta [to_boolean js_or to_string]; run;
    unfold delivery_started, rejection_text; now rewrite <- !app_assoc.
Qed.

Lemma sendTele_failed e :
  axios_post w (sendMessage_url w) (outbound_message w rawMessage) = Throw e ->
  sendTele w rawMessage t
  = (Normal tt, (delivery_started w rawMessage t ++ caught e)%list).
Proof.
  intros P. posted P.
  unfold caught, delivery_started.
  destruct (response e); run; cbn [app]; now rewrite <- !app_assoc.
Qed.

(** With credentials, every run is the information line, one POST, and
    console lines. *)
Lemma sendTele_configured_trace :
  exists tail,
    sendTele w rawMessage t
    = (Normal tt, (delivery_started w rawMessage t ++ tail)%list)
    /\ console_only tail = true.
Proof.
  assert (K : forall e, console_only (caught e) = true)
    by (intros e; unfold caught; destruct (response e); reflexivity).
  destruct (axios_post w (sendMessage_url w) (outbound_message w rawMessage))
    as [[v]|e] eqn:P.
  - destruct v as [| |b|n|s|items|props].
    + eexists. split; [apply (sendTele_null_body_trace VUndefined); auto|].
      apply K.
    + eexists. split; [apply (sendTele_null_body_trace VNull); auto|].
      apply K.
    + eexists. split;
        [apply (sendTele_primitive_body_trace (VBool b)); [exact P|..];
         discriminate|]. reflexivity.
    + eexists. split;
        [apply (sendTele_primitive_body_trace (VNumber n)); [exact P|..];
         discriminate|]. reflexivity.
    + eexists. split;
        [apply (sendTele_primitive_body_trace (VString s)); [exact P|..];
         discriminate|]. reflexivity.
    + eexists. split;
        [apply (sendTele_primitive_body_trace (VArray items)); [exact P|..];
         discriminate|]. reflexivity.
    + destruct (to_boolean (lookup "ok" props)) eqn:Hok.
      * eexists. split; [exact (sendTele_accepted props P Hok)|]. reflexivity.
      * destruct (to_string (js_or (lookup "description" props)
                               (VString "Alasan tidak diketahui")))
          as [d|e] eqn:D.
        -- eexists. split; [exact (sendTele_refused props d P Hok D)|].
           reflexivity.
        -- eexists. split.
           ++ apply (sendTele_refused_unconvertible props P Hok).
              unfold converts. now rewrite D.
           ++ apply K.
  - eexists. split; [exact (sendTele_failed e P)|]. apply K.
Qed.

End NotificationSender.

(** Whatever the configuration and whatever the messaging API does,
    [sendTele] resolves. *)
Lemma sendTele_resolves w rawMessage t : resolves (sendTele w rawMessage t).
Proof.
  unfold resolves.
  destruct (to_boolean (token w)) eqn:Ht;
    [destruct (to_boolean (chatid w)) eqn:Hc|].
  - destruct (sendTele_configured_trace w rawMessage t Ht Hc) as (tail & -> & _).
    now exists tt.
  - rewrite sendTele_skipped by (now right). now exists tt.
  - rewrite sendTele_skipped by (now left). now exists tt.
Qed.

(** C6. When the bot token or the chat identifier is absent (or otherwise
    falsy), [sendTele] logs one warning and resolves at once: nothing is
    sent. *)
Theorem sendTele_without_credentials w rawMessage t :
  to_boolean (token w) = false \/ to_boolean (chatid w) = false ->
  exists t',
    sendTele w rawMessage t = (Normal tt, t')
    /\ t' = (t ++ [warning_line not_configured])%list
    /\ existsb is_outbound [warning_line not_configured] = false.
Proof.
  intros H. exists (t ++ [warning_line not_configured])%list.
  split; [now apply sendTele_skipped | split; reflexivity].
Qed.

Lemma sendTele_without_credentials_witness :
  to_boolean (token (Examples.world (Examples.answers Examples.jakarta)
                       (Examples.answers Examples.chat_not_found)
                       PUndefined PUndefined)) = false
  /\ sendTele (Examples.world (Examples.answers Examples.jakarta)
                 (Examples.answers Examples.chat_not_found)
                 PUndefined PUndefined) "test" []
     = (Normal tt, [warning_line not_configured]).
Proof.
  split; [reflexivity|].
  destruct (sendTele_without_credentials
              (Examples.world (Examples.answers Examples.jakarta)
                 (Examples.answers Examples.chat_not_found)
                 PUndefined PUndefined) "test" [] (or_introl eq_refl))
    as (t' & E & -> & _).
  exact E.
Defined.

(** C7, as the code has it. With credentials present and an answer from the
    messaging API, [sendTele] resolves.  A truthy [ok] is logged as a
    success.  Any other [ok] is logged as an error whose text carries the
    description of the answer, or the generic phrase when the description is
    absent or otherwise falsy, provided the description converts to text; a
    description that cannot be converted makes the template literal throw,
    and the [catch] block reports the TypeError as a delivery failure. *)
Theorem sendTele_response_handling w rawMessage t props :
  to_boolean (token w) = true ->
  to_boolean (chatid w) = true ->
  axios_post w (sendMessage_url w) (outbound_message w rawMessage)
  = Normal {| data := VObject props |} ->
  (to_boolean (lookup "ok" props) = true ->
   sendTele w rawMessage t
   = (Normal tt,
      (delivery_started w rawMessage t
       ++ [success_line "Notifikasi Telegram berhasil terkirim!"])%list))
  /\ (to_boolean (lookup "ok" props) = false ->
      (forall text,
         to_string (js_or (lookup "description" props)
                          (VString "Alasan tidak diketahui")) = Normal text ->
         sendTele w rawMessage t
         = (Normal tt,
            (delivery_started w rawMessage t
             ++ [error_line ("Gagal mengirim notifikasi Telegram: " ++ text)])%list))
      /\ (forall d, lookup "description" props = VString d ->
          exists line,
            sendTele w rawMessage t
            = (Normal tt,
               (delivery_started w rawMessage t ++ [error_line line])%list)
            /\ Str.contains line d)
      /\ (to_boolean (lookup "description" props) = false ->
          sendTele w rawMessage t
          = (Normal tt,
             (delivery_started w rawMessage t
              ++ [error_line
                    "Gagal mengirim notifikasi Telegram: Alasan tidak diketahui"])%list))
      /\ (converts (js_or (lookup "description" props)
                          (VString "Alasan tidak diketahui")) = false ->
          sendTele w rawMessage t
          = (Normal tt,
             (delivery_started w rawMessage t
              ++ [ConsoleError Red
                    "[ERROR TELEGRAM] Error saat mengirim pesan Telegram: Cannot convert object to primitive value";
                  error_line
                    "Notifikasi Telegram gagal terkirim karena kesalahan koneksi atau API."])%list))).
Proof.
  intros Ht Hc P. split.
  - intros Hok. exact (sendTele_accepted w rawMessage t Ht Hc props P Hok).
  - intros Hok. split; [|split; [|split]].
    + intros text D.
      exact (sendTele_refused w rawMessage t Ht Hc props text P Hok D).
    + intros d Hd. unfold js_or.
      destruct (String.eqb_spec d "") as [-> | Hne].
      * exists (rejection_text "Alasan tidak diketahui"). split.
        -- apply (sendTele_refused w rawMessage t Ht Hc props _ P Hok).
           now rewrite Hd.
        -- now exists "", (rejection_text "Alasan tidak diketahui").
      * exists (rejection_text d). split.
        -- apply (sendTele_refused w rawMessage t Ht Hc props _ P Hok).
           rewrite Hd. unfold js_or. cbn [to_boolean].
           apply String.eqb_neq in Hne. now rewrite Hne.
        -- apply contains_suffix.
    + intros Hd.
      apply (sendTele_refused w rawMessage t Ht Hc props _ P Hok).
      unfold js_or. now rewrite Hd.
    + intros D.
      exact (sendTele_refused_unconvertible w rawMessage t Ht Hc props P Hok D).
Qed.

Lemma sendTele_response_handling_witness :
  sendTele (Examples.configured (Examples.answers Examples.jakarta)
              (Examples.answers Examples.chat_not_found)) "test" []
  = (Normal tt,
     (delivery_started
        (Examples.configured (Examples.answers Examples.jakarta)
           (Examples.answers Examples.chat_not_found)) "test" []
      ++ [error_line "Gagal mengirim notifikasi Telegram: chat not found"])%list)
  /\ Str.contains "Gagal mengirim notifikasi Telegram: chat not found"
                  "chat not found".
Proof.
  destruct (sendTele_response_handling
              (Examples.configured (Examples.answers Examples.jakarta)
                 (Examples.answers Examples.chat_not_found)) "test" []
              [("ok", VBool false); ("error_code", VNumber "400");
               ("description", VString "chat not found")]
              eq_refl eq_refl eq_refl) as [_ R].
  destruct (R eq_refl) as (E & _).
  split; [exact (E "chat not found" eq_refl)|].
  now exists "Gagal mengirim notifikasi Telegram: ", "".
Defined.

(** The claim C7 fails on an answer whose description is an object with its
    own [toString]: no line carries the description or the generic phrase;
    the lines are those of the [catch] block. *)
Lemma rejection_without_the_description :
  to_boolean (lookup "ok" [("ok", VBool false);
                           ("description", VObject [("toString", VNumber "1")])])
  = false
  /\ sendTele (Examples.configured (Examples.answers Examples.jakarta)
                 (Examples.answers Examples.odd_description)) "test" []
     = (Normal tt,
        (delivery_started
           (Examples.configured (Examples.answers Examples.jakarta)
              (Examples.answers Examples.odd_description)) "test" []
         ++ [ConsoleError Red
               "[ERROR TELEGRAM] Error saat mengirim pesan Telegram: Cannot convert object to primitive value";
             error_line
               "Notifikasi Telegram gagal terkirim karena kesalahan koneksi atau API."])%list).
Proof.
  split; [reflexivity|].
  apply (sendTele_refused_unconvertible
           (Examples.configured (Examples.answers Examples.jakarta)
              (Examples.answers Examples.odd_description)) "test" []
           eq_refl eq_refl
           [("ok", VBool false);
            ("description", VObject [("toString", VNumber "1")])]);
    reflexivity.
Qed.

(* ================================================================= *)
(** ** The snapshot *)

Lemma nonempty_app_r a b : Str.nonempty b -> Str.nonempty (a ++ b).
Proof.
  unfold Str.nonempty. destruct a; simpl; [trivial | discriminate].
Qed.

Lemma all_app p a b : Str.all p (a ++ b) = Str.all p a && Str.all p b.
Proof.
  induction a as [|x a IH]; simpl; [reflexivity|].
  now rewrite IH, andb_assoc.
Qed.

Lemma wrap_nonempty opening closing gap stepback indent partial :
  Str.nonempty opening ->
  Str.nonempty (wrap opening closing gap stepback indent partial).
Proof.
  intros H. unfold wrap.
  destruct partial; [|destruct (String.eqb gap "")];
    now apply nonempty_app_l.
Qed.

(** An object always serializes to a text, and never to the empty one. *)
Lemma stringify_object_filled props space :
  filled (JSON_stringify (VObject props) space).
Proof.
  unfold filled, JSON_stringify. cbn [SerializeJSONProperty].
  eexists. split; [reflexivity|]. apply wrap_nonempty. discriminate.
Qed.

Lemma location_shape_nonempty location :
  location_shape location -> Str.nonempty location.
Proof.
  intros [(c & r & k & ->) | [[msg ->] | [e ->]]].
  - unfold place. apply nonempty_app_r. discriminate.
  - unfold failure_text. apply nonempty_app_l. discriminate.
  - unfold transport_text. apply nonempty_app_l. discriminate.
Qed.

(** None of the three texts is the value [location] is initialised with. *)
Lemma location_shape_not_initial location :
  location_shape location -> location <> "Lokasi tidak diketahui".
Proof.
  intros [(c & r & k & ->) | [[msg ->] | [e ->]]].
  - intros E.
    assert (C : Str.all (fun a => negb (Ascii.eqb a ",")) (place c r k) = false).
    { unfold place. rewrite all_app. cbn. apply andb_false_r. }
    rewrite E in C. discriminate C.
  - unfold failure_text. discriminate.
  - unfold transport_text. discriminate.
Qed.

(** C8, as the code has it. For every request that carries a header mapping
    and whose address can be read (its forwarded-for header is present and
    not empty, or it has a connection object), and for every outcome of the
    geolocation lookup, [getRequest] returns a snapshot whose address, agent,
    method, path, query, headers, location and timestamp are non-empty
    strings; a missing source gives "Unknown IP", "Unknown User-Agent",
    "Unknown Method" or "Unknown URL", a missing query and an empty header
    mapping give "{}"; the location is the composed place, the
    service-failure text or the transport-failure text, and never the
    literal "Lokasi tidak diketahui" the variable starts with. *)
Theorem snapshot_fields w req h t :
  Req.headers req = Some h ->
  addressable req h = true ->
  exists snap t',
    getRequest w req t = (Normal snap, t')
    /\ (Str.nonempty (Snapshot.ip snap)
        /\ Str.nonempty (Snapshot.userAgent snap)
        /\ Str.nonempty (Snapshot.method snap)
        /\ Str.nonempty (Snapshot.url snap)
        /\ filled (Snapshot.query snap)
        /\ filled (Snapshot.headers snap)
        /\ Str.nonempty (Snapshot.location snap)
        /\ Str.nonempty (Snapshot.timestamp snap))
    /\ (missing (assoc "x-forwarded-for" h) = true ->
        missing (remote req) = true ->
        Snapshot.ip snap = "Unknown IP")
    /\ (missing (assoc "user-agent" h) = true ->
        Snapshot.userAgent snap = "Unknown User-Agent")
    /\ (missing (Req.method req) = true ->
        Snapshot.method snap = "Unknown Method")
    /\ (missing (Req.originalUrl req) = true ->
        missing (Req.url req) = true ->
        Snapshot.url snap = "Unknown URL")
    /\ (Req.query req = None -> Snapshot.query snap = Some "{}")
    /\ (h = [] -> Snapshot.headers snap = Some "{}")
    /\ location_shape (Snapshot.location snap)
    /\ Snapshot.location snap <> "Lokasi tidak diketahui".
Proof.
  intros H A.
  destruct (locate_outcome w (address req h) t) as (location & tail & L & _ & S).
  exists (snapshot_of w req h location), (lookup_started t (address req h) ++ tail)%list.
  split; [exact (getRequest_located w req t h location _ H A L)|].
  cbn [snapshot_of Snapshot.ip Snapshot.userAgent Snapshot.method Snapshot.url
       Snapshot.query Snapshot.headers Snapshot.location Snapshot.timestamp].
  repeat split.
  - unfold address. repeat apply or_else_nonempty. discriminate.
  - apply or_else_nonempty. discriminate.
  - apply or_else_nonempty. discriminate.
  - repeat apply or_else_nonempty. discriminate.
  - destruct (Req.query req) as [q|].
    + apply stringify_object_filled.
    + exists "{}". split; [reflexivity | discriminate].
  - apply stringify_object_filled.
  - now apply location_shape_nonempty.
  - exact (now_filled w).
  - intros X B. unfold address. now rewrite !or_else_missing.
  - intros X. now rewrite or_else_missing.
  - intros X. now rewrite or_else_missing.
  - intros X B. now rewrite !or_else_missing.
  - now intros ->.
  - now intros ->.
  - exact S.
  - now apply location_shape_not_initial.
Qed.

Lemma snapshot_fields_witness :
  exists snap t',
    getRequest (Examples.configured (Throw Examples.timeout)
                  (Examples.answers Examples.chat_not_found))
               Examples.bare [] = (Normal snap, t')
    /\ Snapshot.ip snap = "Unknown IP"
    /\ Snapshot.userAgent snap = "Unknown User-Agent"
    /\ Snapshot.method snap = "Unknown Method"
    /\ Snapshot.url snap = "Unknown URL"
    /\ Snapshot.query snap = Some "{}"
    /\ Snapshot.headers snap = Some "{}"
    /\ Str.nonempty (Snapshot.timestamp snap).
Proof.
  destruct (snapshot_fields
              (Examples.configured (Throw Examples.timeout)
                 (Examples.answers Examples.chat_not_found))
              Examples.bare [] [] eq_refl eq_refl)
    as (snap & t' & E & (_ & _ & _ & _ & _ & _ & _ & T)
        & X & B & C & D & Q & Hh & _).
  exists snap, t'.
  repeat split;
    [exact E | exact (X eq_refl eq_refl) | exact (B eq_refl) | exact (C eq_refl)
     | exact (D eq_refl eq_refl) | exact (Q eq_refl) | exact (Hh eq_refl)
     | exact T].
Defined.

(** The claim C8 fails on the location: when the lookup cannot be made, the
    field is a description of the failure, not the fallback literal. *)
Lemma location_fallback_literal_unused :
  exists snap t',
    getRequest (Examples.configured (Throw Examples.timeout)
                  (Examples.answers Examples.chat_not_found))
               Examples.bare [] = (Normal snap, t')
    /\ Snapshot.location snap
       = "Error saat mengambil lokasi: timeout of 0ms exceeded"
    /\ Snapshot.location snap <> "Lokasi tidak diketahui".
Proof.
  eexists _, _. split.
  - eapply getRequest_located; [reflexivity | reflexivity |].
    apply locate_rejected. reflexivity.
  - split; [reflexivity | discriminate].
Qed.

(** C9, as the code has it. The agent comes from the user-agent header and
    the method from the request method, each with its one fallback literal;
    the path comes from [req.originalUrl] first and from [req.url] only when
    that one is missing, then from the fallback literal. *)
Theorem agent_method_path_sources w req h t :
  Req.headers req = Some h ->
  addressable req h = true ->
  exists snap t',
    getRequest w req t = (Normal snap, t')
    /\ Snapshot.userAgent snap = SingleSource.agent h
    /\ Snapshot.method snap = SingleSource.method req
    /\ Snapshot.url snap = or_else (Req.originalUrl req) (SingleSource.path req)
    /\ (missing (Req.originalUrl req) = true ->
        Snapshot.url snap = SingleSource.path req).
Proof.
  intros H A.
  destruct (locate_outcome w (address req h) t) as (location & tail & L & _).
  exists (snapshot_of w req h location), (lookup_started t (address req h) ++ tail)%list.
  split; [exact (getRequest_located w req t h location _ H A L)|].
  cbn [snapshot_of Snapshot.userAgent Snapshot.method Snapshot.url].
  repeat split. intros X. now rewrite or_else_missing.
Qed.

Lemma agent_method_path_sources_witness :
  exists snap t',
    getRequest (Examples.configured (Examples.answers Examples.jakarta)
                  (Examples.answers Examples.chat_not_found))
               Examples.proxied [] = (Normal snap, t')
    /\ Snapshot.userAgent snap = "curl/8.5.0"
    /\ Snapshot.method snap = "GET"
    /\ Snapshot.url snap = "/admin/login".
Proof.
  destruct (agent_method_path_sources
              (Examples.configured (Examples.answers Examples.jakarta)
                 (Examples.answers Examples.chat_not_found))
              Examples.proxied Examples.proxied_headers [] eq_refl eq_refl)
    as (snap & t' & E & X & B & C & _).
  exists snap, t'. repeat split; assumption.
Defined.

(** The claim C9 fails on the path: with both URLs present the snapshot
    holds [req.originalUrl], not the single source [req.url]. *)
Lemma path_has_two_sources :
  exists snap t',
    getRequest (Examples.configured (Examples.answers Examples.jakarta)
                  (Examples.answers Examples.chat_not_found))
               Examples.proxied [] = (Normal snap, t')
    /\ Snapshot.url snap = "/admin/login"
    /\ SingleSource.path Examples.proxied = "/login"
    /\ Snapshot.url snap <> SingleSource.path Examples.proxied.
Proof.
  eexists _, _. split.
  - eapply getRequest_located; [reflexivity | reflexivity |].
    apply (locate_success _ _ _
             [("status", VString "success"); ("country", VString "Indonesia");
              ("regionName", VString "DKI Jakarta"); ("city", VString "Jakarta");
              ("lat", VNumber "-6.2"); ("lon", VNumber "106.8")]); reflexivity.
  - repeat split. discriminate.
Qed.

(** C1 at a request without a header mapping: the first line of
    [getRequest] throws outside the [try] block, so the promise is rejected,
    whatever the two services would have answered. *)
Theorem getRequest_rejects_without_headers w t :
  getRequest w Examples.headless t
  = (Throw (TypeError_read "undefined" "x-forwarded-for"), t)
  /\ ~ resolves (getRequest w Examples.headless t).
Proof.
  assert (E : getRequest w Examples.headless t
              = (Throw (TypeError_read "undefined" "x-forwarded-for"), t))
    by (now apply getRequest_without_headers).
  split; [exact E|]. rewrite E. intros [a Ha]. discriminate Ha.
Qed.

(* ================================================================= *)
(** * Further properties of the escaper *)

Section EscaperFacts.

Lemma escape_set_length R s :
  String.length (escape_set R s) = String.length s + count R s.
Proof.
  induction s as [|a s IH]; [reflexivity|].
  cbn [escape_set count String.length]. destruct (R a); cbn [String.length];
    rewrite IH; lia.
Qed.

Lemma count_le_length p s : count p s <= String.length s.
Proof.
  induction s as [|a s IH]; cbn [count String.length]; [lia|].
  destruct (p a); lia.
Qed.

Lemma escape_set_backslashes R s :
  R backslash = false ->
  count is_backslash (escape_set R s) = count is_backslash s + count R s.
Proof.
  intros Hb. induction s as [|a s IH]; [reflexivity|].
  cbn [escape_set count]. destruct (R a) eqn:Hr; cbn [count].
  - assert (Ha : is_backslash a = false).
    { unfold is_backslash. apply Ascii.eqb_neq. congruence. }
    rewrite Ha, IH. unfold is_backslash at 1. rewrite Ascii.eqb_refl. lia.
  - rewrite IH. lia.
Qed.

Lemma escape_set_fixed R s :
  R backslash = false ->
  escape_set R s = s <-> Str.all (fun a => negb (R a)) s = true.
Proof.
  intros Hb. induction s as [|a s IH]; cbn [escape_set Str.all].
  - split; reflexivity.
  - destruct (R a) eqn:Hr; cbn [negb andb].
    + split; [|discriminate]. intros E. injection E as E _.
      subst a. congruence.
    + split.
      * intros E. injection E as E. now apply IH.
      * intros E. f_equal. now apply IH.
Qed.

Lemma escape_set_keeps_reserved R s :
  R backslash = false ->
  Str.all (fun a => negb (R a)) (escape_set R s)
  = Str.all (fun a => negb (R a)) s.
Proof.
  intros Hb. induction s as [|a s IH]; [reflexivity|].
  cbn [escape_set]. destruct (R a) eqn:Hr; cbn [Str.all].
  - now rewrite Hb, Hr.
  - now rewrite Hr, IH.
Qed.

End EscaperFacts.

(** X1. The eighteen sequential replacements compute one scan from left to
    right that writes a backslash before each reserved character and copies
    every other character: no pass escapes again what an earlier pass
    inserted. *)
Theorem escape_is_single_scan (text : string) :
  escapeMarkdownV2 text = escape_set reserved text.
Proof. apply escapeMarkdownV2_single_pass. Qed.

(** X2. Escaping distributes over concatenation: a message built from parts
    can be escaped part by part. *)
Theorem escape_concat (a b : string) :
  escapeMarkdownV2 (a ++ b) = escapeMarkdownV2 a ++ escapeMarkdownV2 b.
Proof. apply escapeMarkdownV2_app. Qed.

(** X3. The escaped text is longer than the text by the number of its
    reserved characters, hence at most twice as long, and the only
    characters added are backslashes, one per reserved character. *)
Theorem escape_length (text : string) :
  String.length (escapeMarkdownV2 text)
  = String.length text + count reserved text
  /\ String.length (escapeMarkdownV2 text) <= 2 * String.length text
  /\ count is_backslash (escapeMarkdownV2 text)
     = count is_backslash text + count reserved text.
Proof.
  rewrite escapeMarkdownV2_single_pass, escape_set_length.
  pose proof (count_le_length reserved text).
  split; [reflexivity|]. split; [lia|].
  apply escape_set_backslashes. exact reserved_not_backslash.
Qed.

(** X4. Escaping leaves a text unchanged exactly when the text has no
    reserved character; backslashes already in the text are not escaped. *)
Theorem escape_fixed_points (text : string) :
  escapeMarkdownV2 text = text <-> Str.all unreserved text = true.
Proof.
  rewrite escapeMarkdownV2_single_pass.
  apply escape_set_fixed. exact reserved_not_backslash.
Qed.

(** X5. Escaping is not idempotent: escaping an escaped text changes it again
    unless the original text had no reserved character. *)
Theorem escape_twice (text : string) :
  escapeMarkdownV2 (escapeMarkdownV2 text) = escapeMarkdownV2 text
  <-> Str.all unreserved text = true.
Proof.
  rewrite !escapeMarkdownV2_single_pass.
  rewrite (escape_set_fixed reserved _ reserved_not_backslash).
  unfold unreserved.
  now rewrite (escape_set_keeps_reserved reserved _ reserved_not_backslash).
Qed.

(** X6. Unescaping undoes escaping on every text, also on texts that hold
    backslashes. *)
Theorem unescape_escape_any_text (text : string) :
  unescapeMarkdownV2 (escapeMarkdownV2 text) = text.
Proof. apply unescape_escape. Qed.

(** X7. Two different messages never have the same escaped form. *)
Theorem escape_injective (a b : string) :
  a <> b -> escapeMarkdownV2 a <> escapeMarkdownV2 b.
Proof.
  intros Hab E. apply Hab.
  rewrite <- (unescape_escape a), <- (unescape_escape b). now rewrite E.
Qed.

Lemma escape_injective_witness :
  "a.b" <> "a\.b" /\ escapeMarkdownV2 "a.b" <> escapeMarkdownV2 "a\.b".
Proof.
  split; [discriminate|].
  apply (escape_injective "a.b" "a\.b"). discriminate.
Defined.

(* ================================================================= *)
(** * Further properties of the console helper *)

(** X8. [logStyled] falls to the default case of its switch for every type
    other than 'success', 'error' and 'warn': the message is printed once,
    styled as an information line, and nothing is thrown. *)
Theorem logStyled_unknown_type (message type : string) (t : list Event) :
  type <> "success" -> type <> "error" -> type <> "warn" ->
  logStyled message type t = (Normal tt, (t ++ [info_line message])%list).
Proof.
  intros Hs He Hw. unfold logStyled.
  apply String.eqb_neq in Hs, He, Hw. now rewrite Hs, He, Hw.
Qed.

Lemma logStyled_unknown_type_witness :
  logStyled "started" "debug" [] = (Normal tt, [info_line "started"]).
Proof.
  apply (logStyled_unknown_type "started" "debug" []); discriminate.
Defined.

(* ================================================================= *)
(** * Further properties of the request describer *)

Lemma console_only_outbound tail :
  console_only tail = true -> outbound_calls tail = [].
Proof.
  unfold console_only, outbound_calls.
  induction tail as [|ev tail IH]; cbn [forallb filter]; [reflexivity|].
  intros H. apply andb_prop in H as [H1 H2].
  destruct (is_outbound ev); [discriminate | now apply IH].
Qed.

Lemma outbound_calls_app t1 t2 :
  outbound_calls (t1 ++ t2) = (outbound_calls t1 ++ outbound_calls t2)%list.
Proof. apply filter_app. Qed.

(** X9. The address of the snapshot is the forwarded-for header when that
    header is present and not empty; otherwise the remote address of the
    connection when it is present and not empty; an empty string counts as
    missing. *)
Theorem address_precedence w req h t :
  Req.headers req = Some h ->
  addressable req h = true ->
  exists snap t',
    getRequest w req t = (Normal snap, t')
    /\ (forall x, assoc "x-forwarded-for" h = Some x -> x <> "" ->
                  Snapshot.ip snap = x)
    /\ (missing (assoc "x-forwarded-for" h) = true ->
        forall a, remote req = Some a -> a <> "" -> Snapshot.ip snap = a).
Proof.
  intros H A.
  destruct (locate_outcome w (address req h) t) as (location & tail & L & _).
  exists (snapshot_of w req h location), (lookup_started t (address req h) ++ tail)%list.
  split; [exact (getRequest_located w req t h location _ H A L)|].
  cbn [snapshot_of Snapshot.ip]. unfold address. split.
  - intros x Hx Hne. rewrite Hx. cbn [or_else].
    apply String.eqb_neq in Hne. now rewrite Hne.
  - intros Hm a Ha Hne. rewrite (or_else_missing _ _ Hm), Ha. cbn [or_else].
    apply String.eqb_neq in Hne. now rewrite Hne.
Qed.

Lemma address_precedence_witness :
  exists snap t',
    getRequest (Examples.configured (Throw Examples.timeout)
                  (Examples.answers Examples.chat_not_found))
               Examples.proxied [] = (Normal snap, t')
    /\ Snapshot.ip snap = "203.0.113.7".
Proof.
  destruct (address_precedence
              (Examples.configured (Throw Examples.timeout)
                 (Examples.answers Examples.chat_not_found))
              Examples.proxied Examples.proxied_headers [] eq_refl eq_refl)
    as (snap & t' & E & F & _).
  exists snap, t'. split; [exact E|].
  apply (F "203.0.113.7"); [reflexivity | discriminate].
Defined.

(** X10. A request that carries a header mapping is answered exactly when
    its address can be read (a forwarded-for header that is present and not
    empty, or a connection object).  Then [getRequest] resolves, whatever
    the geolocation service does, after exactly one outbound call: a GET of
    the lookup URL built from the address of the snapshot as it is, the
    literal "Unknown IP" included; it never posts.  Otherwise it rejects
    with the TypeError of the read of [remoteAddress], before anything is
    logged or sent. *)
Theorem getRequest_one_lookup w req h t :
  Req.headers req = Some h ->
  (addressable req h = true ->
   exists snap t',
     getRequest w req t = (Normal snap, t')
     /\ outbound_calls t'
        = (outbound_calls t ++ [HttpGet (lookup_url (Snapshot.ip snap))])%list
     /\ (missing (assoc "x-forwarded-for" h) = true ->
         missing (remote req) = true ->
         outbound_calls t'
         = (outbound_calls t
            ++ [HttpGet "http://ip-api.com/json/Unknown IP?fields=status,message,country,regionName,city,lat,lon"])%list))
  /\ (addressable req h = false ->
      getRequest w req t
      = (Throw (TypeError_read "undefined" "remoteAddress"), t)).
Proof.
  intros H. split.
  - intros A.
    destruct (locate_outcome w (address req h) t) as (location & tail & L & C & _).
    exists (snapshot_of w req h location), (lookup_started t (address req h) ++ tail)%list.
    split; [exact (getRequest_located w req t h location _ H A L)|].
    assert (O : outbound_calls (lookup_started t (address req h) ++ tail)
                = (outbound_calls t ++ [HttpGet (lookup_url (address req h))])%list).
    { unfold lookup_started. rewrite !outbound_calls_app.
      rewrite (console_only_outbound tail C). cbn. now rewrite app_nil_r. }
    split; [exact O|].
    intros X B. rewrite O. unfold address. now rewrite !or_else_missing.
  - intros A. exact (getRequest_without_connection w req t h H A).
Qed.

Lemma getRequest_one_lookup_witness :
  (exists snap t',
     getRequest (Examples.configured (Throw Examples.timeout)
                   (Examples.answers Examples.chat_not_found))
                Examples.bare [] = (Normal snap, t')
     /\ outbound_calls t'
        = [HttpGet "http://ip-api.com/json/Unknown IP?fields=status,message,country,regionName,city,lat,lon"])
  /\ getRequest (Examples.configured (Throw Examples.timeout)
                   (Examples.answers Examples.chat_not_found))
                Examples.unconnected []
     = (Throw (TypeError_read "undefined" "remoteAddress"), []).
Proof.
  split.
  - destruct (getRequest_one_lookup
                (Examples.configured (Throw Examples.timeout)
                   (Examples.answers Examples.chat_not_found))
                Examples.bare [] [] eq_refl) as [R _].
    destruct (R eq_refl) as (snap & t' & E & _ & U).
    exists snap, t'. split; [exact E | exact (U eq_refl eq_refl)].
  - destruct (getRequest_one_lookup
                (Examples.configured (Throw Examples.timeout)
                   (Examples.answers Examples.chat_not_found))
                Examples.unconnected [] [] eq_refl) as [_ R].
    exact (R eq_refl).
Defined.

(** X11. When the lookup request itself fails (the call rejects with an
    error), [getRequest] resolves with the location "Error saat mengambil
    lokasi: " followed by the error's message, after printing that message
    on the error stream and one error line. *)
Theorem location_of_rejected_lookup w req h t e :
  Req.headers req = Some h ->
  addressable req h = true ->
  axios_get w (lookup_url (address req h)) = Throw e ->
  exists snap t',
    getRequest w req t = (Normal snap, t')
    /\ Snapshot.location snap = "Error saat mengambil lokasi: " ++ message e
    /\ t' = (lookup_started t (address req h)
             ++ [ConsoleError Red
                   ("[ERROR FETCH] Gagal mendapatkan lokasi dari ip-api.com untuk IP "
                    ++ address req h ++ ": " ++ message e);
                 error_line "Terjadi kesalahan saat mencari lokasi."])%list.
Proof.
  intros H A G. eexists _, _. split; [|split].
  - eapply getRequest_located; [exact H | exact A |].
    apply (locate_rejected w _ t e G).
  - reflexivity.
  - reflexivity.
Qed.

Lemma location_of_rejected_lookup_witness :
  exists snap t',
    getRequest (Examples.configured (Throw Examples.timeout)
                  (Examples.answers Examples.chat_not_found))
               Examples.bare [] = (Normal snap, t')
    /\ Snapshot.location snap
       = "Error saat mengambil lokasi: timeout of 0ms exceeded".
Proof.
  destruct (location_of_rejected_lookup
              (Examples.configured (Throw Examples.timeout)
                 (Examples.answers Examples.chat_not_found))
              Examples.bare [] [] Examples.timeout eq_refl eq_refl eq_refl)
    as (snap & t' & E & L & _).
  exists snap, t'. split; [exact E | exact L].
Defined.

(** X12. When the body of the answer is not an object (a boolean, a number,
    a text such as an HTML error page, or an array), the lookup counts as
    refused by the service and the location is the service-failure text with
    the generic phrase. *)
Theorem location_of_non_object_body w req h t v :
  Req.headers req = Some h ->
  addressable req h = true ->
  axios_get w (lookup_url (address req h)) = Normal {| data := v |} ->
  v <> VNull -> v <> VUndefined -> (forall props, v <> VObject props) ->
  exists snap t',
    getRequest w req t = (Normal snap, t')
    /\ Snapshot.location snap
       = "Gagal mendapatkan lokasi: Error tidak diketahui dari ip-api.com".
Proof.
  intros H A G Hn Hu Ho. eexists _, _. split.
  - eapply getRequest_located; [exact H | exact A |].
    apply (locate_primitive_body w _ t v G); [|exact Ho].
    destruct v; try reflexivity; [now elim Hu | now elim Hn |].
    exfalso. eapply Ho. reflexivity.
  - reflexivity.
Qed.

Lemma location_of_non_object_body_witness :
  exists snap t',
    getRequest
      (Examples.configured (Examples.answers (VString "<html>Too Many Requests</html>"))
         (Examples.answers Examples.chat_not_found))
      Examples.bare [] = (Normal snap, t')
    /\ Snapshot.location snap
       = "Gagal mendapatkan lokasi: Error tidak diketahui dari ip-api.com".
Proof.
  apply (location_of_non_object_body
           (Examples.configured
              (Examples.answers (VString "<html>Too Many Requests</html>"))
              (Examples.answers Examples.chat_not_found))
           Examples.bare [] [] (VString "<html>Too Many Requests</html>"));
    try reflexivity; discriminate.
Defined.

(** X13. On a "success" answer that lacks the fields city, regionName and
    country, each missing part of the location is the word "undefined": when
    the lat and lon fields convert to text (as they do when they are missing
    too), the location is "undefined, undefined, undefined" and the lookup
    is still logged as a success. *)
Theorem location_with_absent_fields w req h t props :
  Req.headers req = Some h ->
  addressable req h = true ->
  axios_get w (lookup_url (address req h)) = Normal {| data := VObject props |} ->
  lookup "status" props = VString "success" ->
  lookup "city" props = VUndefined ->
  lookup "regionName" props = VUndefined ->
  lookup "country" props = VUndefined ->
  converts (lookup "lat" props) && converts (lookup "lon" props) = true ->
  exists snap t',
    getRequest w req t = (Normal snap, t')
    /\ Snapshot.location snap = "undefined, undefined, undefined"
    /\ exists line,
         t' = (lookup_started t (address req h) ++ [success_line line])%list.
Proof.
  intros H A G Hs Hc Hr Hk C.
  assert (S : strict_eq_string (lookup "status" props) "success" = true)
    by now rewrite Hs.
  unfold converts in C.
  destruct (to_string (lookup "lat" props)) as [la|] eqn:Ela; [|discriminate C].
  destruct (to_string (lookup "lon" props)) as [lo|] eqn:Elo; [|discriminate C].
  eexists _, _. split; [|split].
  - eapply getRequest_located; [exact H | exact A |].
    apply (locate_success w _ t props "undefined" "undefined" "undefined" la lo G S);
      try assumption; [now rewrite Hc | now rewrite Hr | now rewrite Hk].
  - reflexivity.
  - eexists. reflexivity.
Qed.

Lemma location_with_absent_fields_witness :
  exists snap t',
    getRequest
      (Examples.configured (Examples.answers (VObject [("status", VString "success")]))
         (Examples.answers Examples.chat_not_found))
      Examples.bare [] = (Normal snap, t')
    /\ Snapshot.location snap = "undefined, undefined, undefined".
Proof.
  destruct (location_with_absent_fields
              (Examples.configured
                 (Examples.answers (VObject [("status", VString "success")]))
                 (Examples.answers Examples.chat_not_found))
              Examples.bare [] [] [("status", VString "success")]
              eq_refl eq_refl eq_refl eq_refl eq_refl eq_refl eq_refl eq_refl)
    as (snap & t' & E & U & _).
  exists snap, t'. split; [exact E | exact U].
Defined.

(** X14. The geolocation service decides the location field and nothing
    else: for one request read at the same clock text, two runs against
    services that behave differently return snapshots that agree on the
    address, agent, method, path, query, headers and timestamp. *)
Theorem lookup_affects_only_location w1 w2 req h t1 t2 :
  Req.headers req = Some h ->
  addressable req h = true ->
  now w1 = now w2 ->
  exists s1 s2 t1' t2',
    getRequest w1 req t1 = (Normal s1, t1')
    /\ getRequest w2 req t2 = (Normal s2, t2')
    /\ Snapshot.ip s1 = Snapshot.ip s2
    /\ Snapshot.userAgent s1 = Snapshot.userAgent s2
    /\ Snapshot.method s1 = Snapshot.method s2
    /\ Snapshot.url s1 = Snapshot.url s2
    /\ Snapshot.query s1 = Snapshot.query s2
    /\ Snapshot.headers s1 = Snapshot.headers s2
    /\ Snapshot.timestamp s1 = Snapshot.timestamp s2.
Proof.
  intros H A N.
  destruct (locate_outcome w1 (address req h) t1) as (l1 & tail1 & L1 & _).
  destruct (locate_outcome w2 (address req h) t2) as (l2 & tail2 & L2 & _).
  exists (snapshot_of w1 req h l1), (snapshot_of w2 req h l2).
  eexists _, _.
  split; [exact (getRequest_located w1 req t1 h l1 _ H A L1)|].
  split; [exact (getRequest_located w2 req t2 h l2 _ H A L2)|].
  cbn [snapshot_of Snapshot.ip Snapshot.userAgent Snapshot.method Snapshot.url
       Snapshot.query Snapshot.headers Snapshot.timestamp].
  repeat split. exact N.
Qed.

Lemma lookup_affects_only_location_witness :
  exists s1 s2 t1' t2',
    getRequest (Examples.configured (Examples.answers Examples.jakarta)
                  (Examples.answers Examples.chat_not_found))
               Examples.proxied [] = (Normal s1, t1')
    /\ getRequest (Examples.configured (Throw Examples.timeout)
                     (Examples.answers Examples.chat_not_found))
                  Examples.proxied [] = (Normal s2, t2')
    /\ Snapshot.ip s1 = Snapshot.ip s2
    /\ Snapshot.headers s1 = Snapshot.headers s2.
Proof.
  destruct (lookup_affects_only_location
              (Examples.configured (Examples.answers Examples.jakarta)
                 (Examples.answers Examples.chat_not_found))
              (Examples.configured (Throw Examples.timeout)
                 (Examples.answers Examples.chat_not_found))
              Examples.proxied Examples.proxied_headers [] []
              eq_refl eq_refl eq_refl)
    as (s1 & s2 & t1' & t2' & E1 & E2 & X & _ & _ & _ & _ & B & _).
  exists s1, s2, t1', t2'. repeat split; assumption.
Defined.

(** X21. On a "success" answer one of whose fields city, regionName,
    country, lat or lon cannot be converted to text (an object that has its
    own [toString] property, or an array that holds one), the template
    literal throws inside the [try] block: [getRequest] resolves with the
    transport-failure text of the TypeError as location, and prints the
    lines of the [catch] block instead of a success line. *)
Theorem location_of_unconvertible_success w req h t props :
  Req.headers req = Some h ->
  addressable req h = true ->
  axios_get w (lookup_url (address req h)) = Normal {| data := VObject props |} ->
  lookup "status" props = VString "success" ->
  converts (lookup "city" props) && converts (lookup "regionName" props)
  && converts (lookup "country" props) && converts (lookup "lat" props)
  && converts (lookup "lon" props) = false ->
  exists snap t',
    getRequest w req t = (Normal snap, t')
    /\ Snapshot.location snap
       = "Error saat mengambil lokasi: Cannot convert object to primitive value"
    /\ t' = (lookup_started t (address req h)
             ++ [ConsoleError Red
                   ("[ERROR FETCH] Gagal mendapatkan lokasi dari ip-api.com untuk IP "
                    ++ address req h
                    ++ ": Cannot convert object to primitive value");
                 error_line "Terjadi kesalahan saat mencari lokasi."])%list.
Proof.
  intros H A G Hs C.
  assert (S : strict_eq_string (lookup "status" props) "success" = true)
    by now rewrite Hs.
  eexists _, _. split; [|split].
  - eapply getRequest_located; [exact H | exact A |].
    exact (locate_success_unconvertible w _ t props G S C).
  - reflexivity.
  - reflexivity.
Qed.

Lemma location_of_unconvertible_success_witness :
  exists snap t',
    getRequest
      (Examples.configured (Examples.answers Examples.jakarta_odd_latitude)
         (Examples.answers Examples.chat_not_found))
      Examples.bare [] = (Normal snap, t')
    /\ Snapshot.location snap
       = "Error saat mengambil lokasi: Cannot convert object to primitive value".
Proof.
  destruct (location_of_unconvertible_success
              (Examples.configured (Examples.answers Examples.jakarta_odd_latitude)
                 (Examples.answers Examples.chat_not_found))
              Examples.bare [] []
              [("status", VString "success"); ("country", VString "Indonesia");
               ("regionName", VString "DKI Jakarta"); ("city", VString "Jakarta");
               ("lat", VObject [("toString", VNumber "1")]);
               ("lon", VNumber "106.8")]
              eq_refl eq_refl eq_refl eq_refl eq_refl)
    as (snap & t' & E & L & _).
  exists snap, t'. split; [exact E | exact L].
Defined.

(* ================================================================= *)
(** * Further properties of the notification sender *)

(** X15. Whatever the configuration holds and whatever the messaging API
    does (an answer of any shape, or a rejected call), [sendTele] resolves:
    no error of the delivery reaches the caller. *)
Theorem sendTele_always_resolves w rawMessage t :
  exists t', sendTele w rawMessage t = (Normal tt, t').
Proof.
  destruct (to_boolean (token w)) eqn:Ht;
    [destruct (to_boolean (chatid w)) eqn:Hc|].
  - destruct (sendTele_configured_trace w rawMessage t Ht Hc) as (tail & E & _).
    eexists. exact E.
  - eexists. apply sendTele_skipped. now right.
  - eexists. apply sendTele_skipped. now left.
Qed.

(** X16. With both credentials present, [sendTele] makes exactly one
    outbound call whatever the API does, with no retry: a POST to the
    sendMessage endpoint of the token, whose body holds the chat identifier
    converted to text, the escaped message between two code fences, and the
    parse mode MarkdownV2. *)
Theorem sendTele_one_post w rawMessage t :
  to_boolean (token w) = true ->
  to_boolean (chatid w) = true ->
  exists t',
    sendTele w rawMessage t = (Normal tt, t')
    /\ outbound_calls t'
       = (outbound_calls t
          ++ [HttpPost
                ("https://api.telegram.org/bot" ++ text_of (token w)
                 ++ "/sendMessage")
                (VObject
                   [("chat_id", VString (text_of (chatid w)));
                    ("text", VString ("```" ++ nl ++ escapeMarkdownV2 rawMessage
                                      ++ nl ++ "```"));
                    ("parse_mode", VString "MarkdownV2")])])%list
    /\ to_string (token w) = Normal (text_of (token w))
    /\ to_string (chatid w) = Normal (text_of (chatid w)).
Proof.
  intros Ht Hc.
  destruct (sendTele_configured_trace w rawMessage t Ht Hc) as (tail & E & C).
  eexists. split; [exact E|]. split.
  - unfold delivery_started. rewrite !outbound_calls_app.
    rewrite (console_only_outbound tail C). cbn. now rewrite app_nil_r.
  - split; apply to_string_primitive.
Qed.

Lemma sendTele_one_post_witness :
  exists t',
    sendTele (Examples.configured (Examples.answers Examples.jakarta)
                (Throw Examples.timeout)) "a.b" [] = (Normal tt, t')
    /\ outbound_calls t'
       = [HttpPost "https://api.telegram.org/bot123:abc/sendMessage"
            (VObject [("chat_id", VString "-1001");
                      ("text", VString ("```" ++ nl ++ "a\.b" ++ nl ++ "```"));
                      ("parse_mode", VString "MarkdownV2")])].
Proof.
  destruct (sendTele_one_post
              (Examples.configured (Examples.answers Examples.jakarta)
                 (Throw Examples.timeout)) "a.b" [] eq_refl eq_refl)
    as (t' & E & O & _).
  exists t'. split; [exact E | exact O].
Defined.

(** X17. When the call to the messaging API fails, [sendTele] prints the
    error's message on the error stream, then the body of the error's
    response as JSON when the error carries a response, then one error line,
    and resolves. *)
Theorem sendTele_transport_failure w rawMessage t e :
  to_boolean (token w) = true ->
  to_boolean (chatid w) = true ->
  axios_post w (sendMessage_url w) (outbound_message w rawMessage) = Throw e ->
  (response e = None ->
   sendTele w rawMessage t
   = (Normal tt,
      (delivery_started w rawMessage t
       ++ [ConsoleError Red
             ("[ERROR TELEGRAM] Error saat mengirim pesan Telegram: "
              ++ message e);
           error_line
             "Notifikasi Telegram gagal terkirim karena kesalahan koneksi atau API."])%list))
  /\ (forall r, response e = Some r ->
      sendTele w rawMessage t
      = (Normal tt,
         (delivery_started w rawMessage t
          ++ [ConsoleError Red
                ("[ERROR TELEGRAM] Error saat mengirim pesan Telegram: "
                 ++ message e);
              ConsoleError Red
                ("[ERROR TELEGRAM RAW] Respons API Telegram: "
                 ++ template (JSON_stringify (data r) 0));
              error_line
                "Notifikasi Telegram gagal terkirim karena kesalahan koneksi atau API."])%list)).
Proof.
  intros Ht Hc P.
  rewrite (sendTele_failed w rawMessage t Ht Hc e P). unfold caught.
  split; [intros -> | intros r ->]; reflexivity.
Qed.

Lemma sendTele_transport_failure_witness :
  sendTele
    (Examples.configured (Examples.answers Examples.jakarta) (Throw unauthorized))
    "test" []
  = (Normal tt,
     (delivery_started
        (Examples.configured (Examples.answers Examples.jakarta)
           (Throw unauthorized)) "test" []
      ++ [ConsoleError Red
            "[ERROR TELEGRAM] Error saat mengirim pesan Telegram: Request failed with status code 401";
          ConsoleError Red
            ("[ERROR TELEGRAM RAW] Respons API Telegram: {" ++ dquote ++ "ok"
             ++ dquote ++ ":false," ++ dquote ++ "error_code" ++ dquote
             ++ ":401," ++ dquote ++ "description" ++ dquote ++ ":" ++ dquote
             ++ "Unauthorized" ++ dquote ++ "}");
          error_line
            "Notifikasi Telegram gagal terkirim karena kesalahan koneksi atau API."])%list).
Proof.
  destruct (sendTele_transport_failure
              (Examples.configured (Examples.answers Examples.jakarta)
                 (Throw unauthorized))
              "test" [] unauthorized eq_refl eq_refl eq_refl) as [_ R].
  exact (R _ eq_refl).
Defined.

(** X18. When the API answers with a [null] or [undefined] body, reading
    its [ok] field throws inside the [try]; the [catch] block reports the
    TypeError as a delivery failure and [sendTele] resolves without a
    success line. *)
Theorem sendTele_null_body w rawMessage t v :
  to_boolean (token w) = true ->
  to_boolean (chatid w) = true ->
  axios_post w (sendMessage_url w) (outbound_message w rawMessage)
  = Normal {| data := v |} ->
  v = VNull \/ v = VUndefined ->
  sendTele w rawMessage t
  = (Normal tt,
     (delivery_started w rawMessage t
      ++ [ConsoleError Red
            ("[ERROR TELEGRAM] Error saat mengirim pesan Telegram: "
             ++ "Cannot read properties of " ++ nullish_name v
             ++ " (reading 'ok')");
          error_line
            "Notifikasi Telegram gagal terkirim karena kesalahan koneksi atau API."])%list).
Proof.
  intros Ht Hc P Hv.
  rewrite (sendTele_null_body_trace w rawMessage t Ht Hc v P Hv).
  reflexivity.
Qed.

Lemma sendTele_null_body_witness :
  sendTele (Examples.configured (Examples.answers Examples.jakarta)
              (Examples.answers VNull)) "test" []
  = (Normal tt,
     (delivery_started
        (Examples.configured (Examples.answers Examples.jakarta)
           (Examples.answers VNull)) "test" []
      ++ [ConsoleError Red
            "[ERROR TELEGRAM] Error saat mengirim pesan Telegram: Cannot read properties of null (reading 'ok')";
          error_line
            "Notifikasi Telegram gagal terkirim karena kesalahan koneksi atau API."])%list).
Proof.
  apply (sendTele_null_body
           (Examples.configured (Examples.answers Examples.jakarta)
              (Examples.answers VNull)) "test" [] VNull eq_refl eq_refl eq_refl
           (or_introl eq_refl)).
Defined.

(** X19. When the API answers with a body that is not an object (a text, a
    number, a boolean or an array), the answer counts as a rejection without
    a description: [sendTele] logs the generic rejection line and resolves. *)
Theorem sendTele_non_object_body w rawMessage t v :
  to_boolean (token w) = true ->
  to_boolean (chatid w) = true ->
  axios_post w (sendMessage_url w) (outbound_message w rawMessage)
  = Normal {| data := v |} ->
  v <> VNull -> v <> VUndefined -> (forall props, v <> VObject props) ->
  sendTele w rawMessage t
  = (Normal tt,
     (delivery_started w rawMessage t
      ++ [error_line
            "Gagal mengirim notifikasi Telegram: Alasan tidak diketahui"])%list).
Proof.
  intros Ht Hc P Hn Hu Ho.
  rewrite (sendTele_primitive_body_trace w rawMessage t Ht Hc v P Hn Hu Ho).
  reflexivity.
Qed.

Lemma sendTele_non_object_body_witness :
  sendTele (Examples.configured (Examples.answers Examples.jakarta)
              (Examples.answers (VString "Bad Gateway"))) "test" []
  = (Normal tt,
     (delivery_started
        (Examples.configured (Examples.answers Examples.jakarta)
           (Examples.answers (VString "Bad Gateway"))) "test" []
      ++ [error_line
            "Gagal mengirim notifikasi Telegram: Alasan tidak diketahui"])%list).
Proof.
  apply (sendTele_non_object_body
           (Examples.configured (Examples.answers Examples.jakarta)
              (Examples.answers (VString "Bad Gateway"))) "test" []
           (VString "Bad Gateway") eq_refl eq_refl eq_refl);
    discriminate.
Defined.

(* ================================================================= *)
(** * The serialized headers *)

Lemma cookie_values gap indent values :
  map (fun x =>
         match SerializeJSONProperty gap indent x with
         | Some str => str
         | None => "null"
         end) (map VString values)
  = map QuoteJSONString values.
Proof.
  induction values as [|v values IH]; [reflexivity|].
  cbn [map SerializeJSONProperty]. now rewrite IH.
Qed.

Lemma headers_members h :
  flat_map
    (fun kv : string * value =>
       match SerializeJSONProperty "  " "  " (snd kv) with
       | Some str =>
           [QuoteJSONString (fst kv) ++ ":"
            ++ (if String.eqb "  " "" then "" else " ") ++ str]
       | None => []
       end)
    (map header_property h)
  = map header_line h.
Proof.
  induction h as [|e h IH]; [reflexivity|].
  destruct e as [name v | values].
  - cbn [map flat_map header_property fst snd SerializeJSONProperty app].
    now rewrite IH.
  - cbn [map flat_map header_property fst snd SerializeJSONProperty app].
    rewrite cookie_values, IH. reflexivity.
Qed.

(** X20. The headers field of the snapshot lists the headers of the request
    in their order, one per line indented by two spaces, between a line
    holding an opening brace and a line holding the closing one: a header
    with one value as its quoted name, a colon, a space and the quoted
    value; set-cookie as its quoted name, a colon, a space and the array of
    its quoted values, one per line indented by four spaces between
    brackets.  An empty mapping gives "{}". *)
Theorem headers_layout w req h t :
  Req.headers req = Some h ->
  addressable req h = true ->
  exists snap t',
    getRequest w req t = (Normal snap, t')
    /\ Snapshot.headers snap
       = Some (match h with
               | [] => "{}"
               | _ => "{" ++ nl ++ "  "
                      ++ join ("," ++ nl ++ "  ") (map header_line h)
                      ++ nl ++ "}"
               end).
Proof.
  intros H A.
  destruct (locate_outcome w (address req h) t) as (location & tail & L & _).
  exists (snapshot_of w req h location), (lookup_started t (address req h) ++ tail)%list.
  split; [exact (getRequest_located w req t h location _ H A L)|].
  cbn [snapshot_of Snapshot.headers].
  unfold JSON_stringify, headers_object.
  change (String.concat "" (repeat " " (Nat.min 10 2))) with "  ".
  cbn [SerializeJSONProperty]. change ("" ++ "  ") with "  ".
  rewrite headers_members. f_equal.
  destruct h as [|e h]; reflexivity.
Qed.

Lemma headers_layout_witness :
  exists snap t',
    getRequest (Examples.configured (Throw Examples.timeout)
                  (Examples.answers Examples.chat_not_found))
               Examples.with_cookies [] = (Normal snap, t')
    /\ Snapshot.headers snap
       = Some ("{" ++ nl
               ++ "  " ++ dquote ++ "host" ++ dquote ++ ": "
               ++ dquote ++ "example.org" ++ dquote ++ "," ++ nl
               ++ "  " ++ dquote ++ "set-cookie" ++ dquote ++ ": [" ++ nl
               ++ "    " ++ dquote ++ "a=1" ++ dquote ++ "," ++ nl
               ++ "    " ++ dquote ++ "b=2" ++ dquote ++ nl
               ++ "  ]" ++ nl ++ "}").
Proof.
  apply (headers_layout
           (Examples.configured (Throw Examples.timeout)
              (Examples.answers Examples.chat_not_found))
           Examples.with_cookies
           [Req.Field "host" "example.org"; Req.SetCookie ["a=1"; "b=2"]]
           [] eq_refl eq_refl).
Defined.
